(** * MDT route string decoder: a shallow embedding of [tools/mdt_decoder.py]

    The decoder turns a shareable route string into a JSON-compatible
    mapping in four steps: strip the leading ["!"], decode the custom
    64-symbol alphabet, inflate, summarise the serialized text.

    Python values are modelled as they are at run time:
    - a [str] is a sequence of Unicode code points ([len] counts code
      points, a slice cuts between them);
    - a [bytes] object is a sequence of integers in [0, 256);
    - an exception is a class and a message, and a function that may raise
      returns in the [exc] monad;
    - a [dict] is an insertion-ordered association list, which is also the
      order in which [json.dumps] prints it.

    Two operations come from the interpreter and its library, not from
    the program.  [zlib.decompress] is a parameter of the pipeline, so
    that every statement holds for whatever the codec answers.  The float
    division and [round] are defined on [spec_float], the Standard
    Library's IEEE 754 binary64 data, with the rounding Python performs.

    The progress lines the decoder prints on standard output are not part
    of its result and are left out, and so is [main], which only reads the
    argument and prints the result. *)

From Stdlib Require Import ZArith List String Ascii Bool Lia.
From Stdlib Require Import DecimalString.
From Stdlib Require Import Floats.SpecFloat.
Import ListNotations.
Local Open Scope Z_scope.
Set Warnings "-register-all".

(** ** Python strings, bytes and exceptions *)

Definition char := Z.
Definition str := list char.
Definition bytes := list Z.

(** The values a [bytes] object can hold. *)
Definition is_bytes (b : bytes) : Prop := Forall (fun x => 0 <= x < 256) b.

Definition ord (a : ascii) : char := Z.of_N (N_of_ascii a).

Fixpoint lit (s : string) : str :=
  match s with
  | EmptyString => []
  | String a r => ord a :: lit r
  end.
Arguments lit s%_string.

Definition len {A : Type} (l : list A) : Z := Z.of_nat (List.length l).

Inductive exn_class :=
| ValueError
| KeyError
| ZeroDivisionError
| OverflowError
| ZlibError.

Record exn := mk_exn { exn_kind : exn_class; exn_msg : str }.

Inductive exc (A : Type) :=
| Ok (a : A)
| Raise (e : exn).
Arguments Ok {A} a.
Arguments Raise {A} e.

Definition bind {A B : Type} (m : exc A) (k : A -> exc B) : exc B :=
  match m with
  | Ok a => k a
  | Raise e => Raise e
  end.

Notation "x <- m ;; k" := (bind m (fun x => k))
  (at level 61, m at next level, right associativity).

(** A [for] loop whose body may raise: the first exception ends the loop. *)
Fixpoint for_each {A S : Type} (body : S -> A -> exc S) (l : list A) (s : S)
  : exc S :=
  match l with
  | [] => Ok s
  | a :: r => s' <- body s a ;; for_each body r s'
  end.

(** [s.startswith(p)] *)
Fixpoint startswith (s p : str) {struct p} : bool :=
  match p, s with
  | [], _ => true
  | _ :: _, [] => false
  | b :: p', a :: s' => (a =? b) && startswith s' p'
  end.

(** [s[i:j]] for [0 <= i <= j]. *)
Definition slice {A : Type} (s : list A) (i j : Z) : list A :=
  firstn (Z.to_nat (j - i)) (skipn (Z.to_nat i) s).

(** [s[i:]] and [s[:j]] for non-negative bounds. *)
Definition slice_from {A : Type} (s : list A) (i : Z) : list A :=
  skipn (Z.to_nat i) s.
Definition slice_to {A : Type} (s : list A) (j : Z) : list A :=
  firstn (Z.to_nat j) s.

(** [s.rstrip(c)] for a one-character set [c]. *)
Fixpoint rstrip (s : str) (c : char) : str :=
  match s with
  | [] => []
  | a :: r =>
      match rstrip r c with
      | [] => if a =? c then [] else [a]
      | r' => a :: r'
      end
  end.

(** [needle in hay] on strings: substring search. *)
Fixpoint str_in (needle hay : str) : bool :=
  startswith hay needle ||
  match hay with
  | [] => false
  | _ :: r => str_in needle r
  end.

(** [range(start, stop, step)] for a positive step. *)
Definition py_range (start stop step : Z) : list Z :=
  map (fun k => start + Z.of_nat k * step)
      (seq 0 (Z.to_nat ((stop - start + step - 1) / step))).

(** ** Dictionaries *)

Section Dict.
Context {K V : Type} (eqb : K -> K -> bool).

Fixpoint dict_get (d : list (K * V)) (k : K) : option V :=
  match d with
  | [] => None
  | (k', v) :: r => if eqb k k' then Some v else dict_get r k
  end.

Definition dict_mem (d : list (K * V)) (k : K) : bool :=
  match dict_get d k with Some _ => true | None => false end.

(** [d[k] = v]: an existing key keeps its place, a new one goes last. *)
Fixpoint dict_set (d : list (K * V)) (k : K) (v : V) : list (K * V) :=
  match d with
  | [] => [(k, v)]
  | (k', v') :: r =>
      if eqb k k' then (k', v) :: r else (k', v') :: dict_set r k v
  end.

Definition dict_keys (d : list (K * V)) : list K := map fst d.
End Dict.

(** [d[k]] on a dictionary keyed by characters: a missing key raises
    (the message names the key). *)
Definition dict_item {V : Type} (d : list (char * V)) (k : char) : exc V :=
  match dict_get Z.eqb d k with
  | Some v => Ok v
  | None => Raise (mk_exn KeyError [k])
  end.

Fixpoint str_eqb (a b : str) : bool :=
  match a, b with
  | [], [] => true
  | x :: a', y :: b' => (x =? y) && str_eqb a' b'
  | _, _ => false
  end.

(** ** The custom alphabet (source lines 27-54) *)

Definition B64_ALPHABET : str :=
  lit "abcdefghijklmnopqrstuvwxyzABCDEFGHIJKLMNOPQRSTUVWXYZ0123456789()".

(** [enumerate(s)] *)
Definition enumerate {A : Type} (l : list A) : list (Z * A) :=
  combine (map Z.of_nat (seq 0 (List.length l))) l.

(** [{char: idx for idx, char in enumerate(B64_ALPHABET)}] *)
Definition create_b64_decode_table : list (char * Z) :=
  fold_left (fun d '(idx, ch) => dict_set Z.eqb d ch idx)
            (enumerate B64_ALPHABET) [].

(** Binary digits of a positive number, most significant first. *)
Fixpoint bin_digits (p : positive) (acc : str) : str :=
  match p with
  | xH => ord "1" :: acc
  | xO q => bin_digits q (ord "0" :: acc)
  | xI q => bin_digits q (ord "1" :: acc)
  end.

(** [format(v, '06b')]: binary, zero-filled to six characters, the sign
    first when there is one. *)
Definition format_06b (v : Z) : str :=
  match v with
  | Z0 => repeat (ord "0") 6
  | Zpos p =>
      let d := bin_digits p [] in
      repeat (ord "0") (6 - List.length d) ++ d
  | Zneg p =>
      let d := bin_digits p [] in
      ord "-" :: repeat (ord "0") (5 - List.length d) ++ d
  end.

(** [int(s, 2)] on a string of binary digits; anything else (the empty
    string included) is a [ValueError]. *)
Definition invalid_literal : exn :=
  mk_exn ValueError (lit "invalid literal for int() with base 2").

Fixpoint int_base2_from (s : str) (acc : Z) : exc Z :=
  match s with
  | [] => Ok acc
  | c :: r =>
      if c =? ord "0" then int_base2_from r (2 * acc)
      else if c =? ord "1" then int_base2_from r (2 * acc + 1)
      else Raise invalid_literal
  end.

Definition int_base2 (s : str) : exc Z :=
  match s with
  | [] => Raise invalid_literal
  | _ => int_base2_from s 0
  end.

(** [bytearray.append(v)] *)
Definition bytearray_append (b : bytes) (v : Z) : exc bytes :=
  if (0 <=? v) && (v <? 256) then Ok (b ++ [v])
  else Raise (mk_exn ValueError (lit "byte must be in range(0, 256)")).

Definition decode_custom_b64 (encoded_str : str) : exc bytes :=
  let decode_table := create_b64_decode_table in
  let padding_removed := rstrip encoded_str (ord "=") in
  binary_str <-
    for_each
      (fun binary_str ch =>
         if dict_mem Z.eqb decode_table ch
         then v <- dict_item decode_table ch ;; Ok (binary_str ++ format_06b v)
         else Ok binary_str)
      padding_removed [] ;;
  for_each
    (fun byte_data i =>
       let byte_chunk := slice binary_str i (i + 8) in
       if len byte_chunk =? 8
       then v <- int_base2 byte_chunk ;; bytearray_append byte_data v
       else Ok byte_data)
    (py_range 0 (len binary_str - 7) 8) [].

(** ** Floats: [int / int] and [round(x, ndigits)]

    A Python float is an IEEE 754 binary64 value, here a [spec_float] of
    precision 53.  Both operations are correctly rounded to nearest, ties
    to even, which [binary_normalize] implements. *)

Definition prec : Z := 53.
Definition emax : Z := 1024.

(** The float nearest to [n / d], for [0 < n] and [0 < d]: the quotient is
    taken with at least 56 significant bits and a sticky last bit, so that
    rounding it is rounding [n / d]. *)
Definition nearest_float (neg : bool) (n d : Z) : spec_float :=
  let s := Z.max 0 (Z.log2 d - Z.log2 n + 56) in
  let q := (n * 2 ^ s) / d in
  let sticky := if (n * 2 ^ s) mod d =? 0 then 0 else 1 in
  let m := 2 * q + sticky in
  binary_normalize prec emax (if neg then - m else m) (- s - 1) neg.

(** [a / b] on integers (true division). *)
Definition py_truediv (a b : Z) : exc spec_float :=
  if b =? 0 then Raise (mk_exn ZeroDivisionError (lit "division by zero"))
  else
    let neg := xorb (a <? 0) (b <? 0) in
    if a =? 0 then Ok (S754_zero neg)
    else
      match nearest_float neg (Z.abs a) (Z.abs b) with
      | S754_infinity _ =>
          Raise (mk_exn OverflowError
                   (lit "integer division result too large for a float"))
      | f => Ok f
      end.

(** [a / b] rounded to the nearest integer, ties to even, for [0 < b]. *)
Definition div_half_even (a b : Z) : Z :=
  let q := a / b in
  let r := a mod b in
  if 2 * r <? b then q
  else if b <? 2 * r then q + 1
  else if Z.even q then q else q + 1.

(** Beyond these numbers of digits [round] has nothing to do. *)
Definition NDIGITS_MAX : Z := 323.
Definition NDIGITS_MIN : Z := -308.

(** [round(x, ndigits)] on a float: the exact value of [x] is rounded to
    [ndigits] decimals, ties to even, and the decimal read back as the
    nearest float. *)
Definition py_round (x : spec_float) (ndigits : Z) : exc spec_float :=
  match x with
  | S754_finite sx m e =>
      if NDIGITS_MAX <? ndigits then Ok x
      else if ndigits <? NDIGITS_MIN then Ok (S754_zero sx)
      else
        let up := 10 ^ Z.max 0 ndigits in
        let down := 10 ^ Z.max 0 (- ndigits) in
        let k :=
          div_half_even (Zpos m * 2 ^ Z.max 0 e * up)
                        (2 ^ Z.max 0 (- e) * down) in
        if k =? 0 then Ok (S754_zero sx)
        else
          match nearest_float sx (k * down) up with
          | S754_infinity _ =>
              Raise (mk_exn OverflowError
                       (lit "rounded value too large to represent"))
          | f => Ok f
          end
  | _ => Ok x
  end.

(** ** JSON-compatible results *)

Inductive pyval :=
| PNone
| PBool (b : bool)
| PInt (n : Z)
| PFloat (f : spec_float)
| PStr (s : str)
| PList (l : list pyval)
| PDict (d : list (str * pyval)).

Definition getitem (d : list (str * pyval)) (k : string) : option pyval :=
  dict_get str_eqb d (lit k).
Arguments getitem d k%_string.

Definition setitem (d : list (str * pyval)) (k : string) (v : pyval)
  : list (str * pyval) :=
  dict_set str_eqb d (lit k) v.
Arguments setitem d k%_string v.

Definition keys (v : pyval) : list str :=
  match v with
  | PDict d => dict_keys d
  | _ => []
  end.

(** ** The serialized-data summary (source lines 63-98) *)

Definition hexdigit (n : Z) : char :=
  nth (Z.to_nat n) (lit "0123456789abcdef") 0.

Definition hex (ch : char) (digits : list Z) : str :=
  map (fun i => hexdigit (Z.land (Z.shiftr ch (4 * i)) 15)) digits.

(** One character of [s.encode('unicode_escape')]. *)
Definition escape_char (ch : char) : str :=
  if ch <? 256 then
    if (32 <=? ch) && (ch <? 127) then
      if ch =? ord "\" then lit "\\" else [ch]
    else if ch =? 9 then lit "\t"
    else if ch =? 10 then lit "\n"
    else if ch =? 13 then lit "\r"
    else lit "\x" ++ hex ch [1; 0]
  else if ch <? 65536 then lit "\u" ++ hex ch [3; 2; 1; 0]
  else lit "\U00" ++ hex ch [5; 4; 3; 2; 1; 0].

(** [s.encode('unicode_escape').decode('ascii')] *)
Definition unicode_escape (s : str) : str := flat_map escape_char s.

Definition PARTIAL_PARSING : str :=
  lit "Partial parsing - full AceSerializer implementation needed".

(** No operation of the [try] block raises on a [str], so the handler of
    lines 94-98 is never entered and the function is the block itself. *)
Definition parse_ace_serialized_data (data : str) : pyval :=
  let data := if startswith data [1; 0] then slice_from data 2 else data in
  let result :=
    [ (lit "format", PStr (lit "AceSerializer"));
      (lit "raw_data", PStr (unicode_escape data));
      (lit "parsed_data", PStr PARTIAL_PARSING) ] in
  let result :=
    if str_in (lit "week") data
    then setitem result "contains_week_info" (PBool true) else result in
  let result :=
    if str_in (lit "objects") data
    then setitem result "contains_objects" (PBool true) else result in
  let result :=
    if str_in (lit "pulls") data
    then setitem result "contains_pulls" (PBool true) else result in
  PDict result.

(** ** The pipeline (source lines 56-61 and 100-143)

    [zlib.decompress] belongs to the interpreter's library, not to this
    program: the decoder is defined over any behaviour of it, a function
    from the compressed bytes to the inflated bytes or a raised exception
    ([zlib.error] is the class [ZlibError]). *)

Section Decoder.

Variable zlib_decompress : bytes -> exc bytes.

(** [try: return zlib.decompress(...)
     except zlib.error as e: raise ValueError(f"Decompression failed: {e}")] *)
Definition decompress_data (compressed_data : bytes) : exc bytes :=
  match zlib_decompress compressed_data with
  | Ok d => Ok d
  | Raise e =>
      match exn_kind e with
      | ZlibError =>
          Raise (mk_exn ValueError (lit "Decompression failed: " ++ exn_msg e))
      | _ => Raise e
      end
  end.

(** [b.decode('latin-1')]: every byte is the code point of its value. *)
Definition latin1_decode (b : bytes) : str := b.

(** Step 1: the payload is the route string without its leading ["!"]. *)
Definition strip_marker (route_string : str) : str :=
  if startswith route_string (lit "!")
  then slice_from route_string 1 else route_string.

(** The dict literal of lines 127-135. *)
Definition success_result (original_length compressed_length
                           decompressed_length : Z)
                          (ratio : spec_float) (parsed_data : pyval) : pyval :=
  PDict
    [ (lit "metadata",
       PDict
         [ (lit "original_length", PInt original_length);
           (lit "compressed_length", PInt compressed_length);
           (lit "decompressed_length", PInt decompressed_length);
           (lit "compression_ratio", PFloat ratio) ]);
      (lit "route_data", parsed_data) ].

(** The body of the [try] block, lines 105-137. *)
Definition decode_steps (route_string : str) : exc pyval :=
  let encoded_data := strip_marker route_string in
  compressed_data <- decode_custom_b64 encoded_data ;;
  decompressed_data <- decompress_data compressed_data ;;
  let serialized_str := latin1_decode decompressed_data in
  let parsed_data := parse_ace_serialized_data serialized_str in
  quotient <- py_truediv (len compressed_data) (len decompressed_data) ;;
  ratio <- py_round quotient 2 ;;
  Ok (success_result (len route_string) (len compressed_data)
                     (len decompressed_data) ratio parsed_data).

(** [route_string[:100] + "..." if len(route_string) > 100 else route_string] *)
Definition excerpt (route_string : str) : str :=
  if 100 <? len route_string
  then slice_to route_string 100 ++ lit "..."
  else route_string.

(** The handler of lines 139-143. *)
Definition failure_result (e : exn) (route_string : str) : pyval :=
  PDict
    [ (lit "error", PStr (lit "Failed to decode route string: " ++ exn_msg e));
      (lit "original_string", PStr (excerpt route_string)) ].

Definition decode_mdt_route_string (route_string : str) : pyval :=
  match decode_steps route_string with
  | Ok result => result
  | Raise e => failure_result e route_string
  end.

End Decoder.

(** ** A reference codec for the examples

    The zlib container of RFC 1950 around the stored blocks of RFC 1951,
    with the messages [zlib.decompress] gives.  It inflates what
    [zlib.compress(data, 0)] writes; Huffman-coded blocks are outside it
    and are answered with an error of its own. *)

Module StoredZlib.

Definition zlib_error (code : string) (msg : string) : exn :=
  mk_exn ZlibError
    (lit "Error " ++ lit code ++ lit " while decompressing data: " ++ lit msg).

Definition truncated : exn := zlib_error "-5" "incomplete or truncated stream".

Definition adler32 (data : bytes) : Z :=
  let '(a, b) :=
    fold_left
      (fun '(a, b) x => let a' := (a + x) mod 65521 in (a', (b + a') mod 65521))
      data (1, 0) in
  b * 65536 + a.

(** The blocks, from a byte boundary: the inflated bytes and the input
    left after the final block. *)
Fixpoint inflate_blocks (fuel : nat) (input out : bytes)
  : exc (bytes * bytes) :=
  match fuel, input with
  | S fuel', hdr :: rest =>
      let bfinal := hdr mod 2 in
      let btype := (hdr / 2) mod 4 in
      if btype =? 3 then Raise (zlib_error "-3" "invalid block type")
      else if negb (btype =? 0)
      then Raise (zlib_error "-3" "compressed block in a stored-only stream")
      else
        match rest with
        | l0 :: l1 :: n0 :: n1 :: payload =>
            let n := l0 + 256 * l1 in
            if negb (n + (n0 + 256 * n1) =? 65535)
            then Raise (zlib_error "-3" "invalid stored block lengths")
            else if len payload <? n then Raise truncated
            else
              let out' := out ++ slice_to payload n in
              if bfinal =? 1 then Ok (out', slice_from payload n)
              else inflate_blocks fuel' (slice_from payload n) out'
        | _ => Raise truncated
        end
  | _, _ => Raise truncated
  end.

Definition decompress (data : bytes) : exc bytes :=
  match data with
  | cmf :: flg :: body =>
      if negb ((cmf * 256 + flg) mod 31 =? 0)
      then Raise (zlib_error "-3" "incorrect header check")
      else if negb (cmf mod 16 =? 8)
      then Raise (zlib_error "-3" "unknown compression method")
      else if 7 <? cmf / 16
      then Raise (zlib_error "-3" "invalid window size")
      else if (flg / 32) mod 2 =? 1
      then
        if len body <? 4 then Raise truncated
        else Raise (mk_exn ZlibError (lit "Error 2 while decompressing data"))
      else
        r <- inflate_blocks (List.length body) body [] ;;
        let '(out, trailer) := r in
        match trailer with
        | a3 :: a2 :: a1 :: a0 :: _ =>
            if ((a3 * 256 + a2) * 256 + a1) * 256 + a0 =? adler32 out
            then Ok out
            else Raise (zlib_error "-3" "incorrect data check")
        | _ => Raise truncated
        end
  | _ => Raise truncated
  end.

End StoredZlib.

(** ** The alphabet stage as the specification words it

    Each character of the alphabet stands for its position, a 6-bit
    group; other characters are skipped; the groups are concatenated and
    cut into 8-bit groups, an incomplete last group being dropped. *)

Fixpoint index_of (c : char) (l : str) (i : Z) : option Z :=
  match l with
  | [] => None
  | a :: r => if c =? a then Some i else index_of c r (i + 1)
  end.

Definition symbol_value (c : char) : option Z := index_of c B64_ALPHABET 0.

Definition bits_of (width : list Z) (v : Z) : list bool :=
  map (Z.testbit v) width.

Definition sextet_bits : Z -> list bool := bits_of [5; 4; 3; 2; 1; 0].
Definition octet_bits : Z -> list bool := bits_of [7; 6; 5; 4; 3; 2; 1; 0].

Definition bits_value (bits : list bool) : Z :=
  fold_left (fun acc (b : bool) => 2 * acc + (if b then 1 else 0)) bits 0.

Fixpoint octets (bits : list bool) : bytes :=
  match bits with
  | b7 :: b6 :: b5 :: b4 :: b3 :: b2 :: b1 :: b0 :: rest =>
      bits_value [b7; b6; b5; b4; b3; b2; b1; b0] :: octets rest
  | _ => []
  end.

Definition symbol_bits (c : char) : list bool :=
  match symbol_value c with
  | Some v => sextet_bits v
  | None => []
  end.

Definition alphabet_decoder_spec (s : str) : bytes :=
  octets (flat_map symbol_bits s).

(** The 6-bit groups of a bit string, the last one filled with zeros. *)
Fixpoint sextets (bits : list bool) : list Z :=
  match bits with
  | [] => []
  | b5 :: b4 :: b3 :: b2 :: b1 :: b0 :: rest =>
      bits_value [b5; b4; b3; b2; b1; b0] :: sextets rest
  | tail => [bits_value (tail ++ repeat false (6 - List.length tail))]
  end.

Definition symbol_of (v : Z) : char := nth (Z.to_nat v) B64_ALPHABET 0.

(** Modelled from the spec: the alphabet encoder, which the repository
    (decode-only) does not contain.  It packs the 8-bit bytes, most
    significant bit first, into 6-bit symbols of the fixed alphabet and
    fills the last symbol with zero bits. *)
Definition encode_custom_b64 (data : bytes) : str :=
  map symbol_of (sextets (flat_map octet_bits data)).

(** Modelled from the spec: the [Value] tree of its data model, which the
    repository does not define.  A number is its binary64 value, a string
    its bytes, a table its pairs in insertion order. *)
Inductive Value :=
| Nil
| Boolean (b : bool)
| Number (f : spec_float)
| String_ (s : bytes)
| Table (pairs : list (Value * Value)).

(** Modelled from the spec: a result that is the tree itself.  Deep
    equality relates a JSON-compatible result to a [Value] node by node; a
    table may come back as a mapping keyed by its string keys or as the
    list of its key/value pairs. *)
Inductive deep_equal : pyval -> Value -> Prop :=
| de_nil : deep_equal PNone Nil
| de_bool b : deep_equal (PBool b) (Boolean b)
| de_number f : deep_equal (PFloat f) (Number f)
| de_string s : deep_equal (PStr s) (String_ s)
| de_mapping d pairs :
    Forall2 (fun kv p =>
               fst p = String_ (fst kv) /\ deep_equal (snd kv) (snd p))
            d pairs ->
    deep_equal (PDict d) (Table pairs)
| de_pairs l pairs :
    Forall2 (fun kv p =>
               exists k v, kv = PList [k; v] /\
                           deep_equal k (fst p) /\ deep_equal v (snd p))
            l pairs ->
    deep_equal (PList l) (Table pairs).

(** Modelled from the spec: the contract of its deserializer, a single
    top-level value or the sequence of the top-level values. *)
Definition returns_roots (r : pyval) (roots : list Value) : Prop :=
  (exists v, roots = [v] /\ deep_equal r v) \/
  (exists l, r = PList l /\ Forall2 deep_equal l roots).

(** ** Auxiliary definitions of the proofs *)

(** The character of a bit in [binary_str]. *)
Definition bit_char (b : bool) : char := if b then ord "1" else ord "0".

(** The body of the second loop of [decode_custom_b64]. *)
Definition chunk_body (binary_str : str) (byte_data : bytes) (i : Z)
  : exc bytes :=
  let byte_chunk := slice binary_str i (i + 8) in
  if len byte_chunk =? 8
  then v <- int_base2 byte_chunk ;; bytearray_append byte_data v
  else Ok byte_data.

(** The text the summary is made of, its entries and its word flags. *)
Definition summary_text (data : str) : str :=
  if startswith data [1; 0] then slice_from data 2 else data.

Definition flag (word : string) (key : string) (text : str)
  : list (str * pyval) :=
  if str_in (lit word) text then [(lit key, PBool true)] else [].
Arguments flag word%_string key%_string text.

Definition summary_entries (text : str) : list (str * pyval) :=
  [ (lit "format", PStr (lit "AceSerializer"));
    (lit "raw_data", PStr (unicode_escape text));
    (lit "parsed_data", PStr PARTIAL_PARSING) ]
  ++ flag "week" "contains_week_info" text
  ++ flag "objects" "contains_objects" text
  ++ flag "pulls" "contains_pulls" text.

(** Equality of floats as data. *)
Definition float_eqb (x y : spec_float) : bool :=
  match x, y with
  | S754_zero s, S754_zero s' => Bool.eqb s s'
  | S754_infinity s, S754_infinity s' => Bool.eqb s s'
  | S754_nan, S754_nan => true
  | S754_finite s m e, S754_finite s' m' e' =>
      Bool.eqb s s' && (m =? m')%positive && (e =? e')
  | _, _ => false
  end.

(** The float of an integer below 2^53, which is exact. *)
Definition float_of_int (n : Z) : spec_float :=
  binary_normalize prec emax n 0 false.

(** What a rounding can give for a value below [2 ^ B]: zero, or a finite
    float in the exponent range whose value is at most [2 ^ B], or the
    least positive float. *)
Definition float_below (sx : bool) (B : Z) (f : spec_float) : Prop :=
  match f with
  | S754_zero _ => True
  | S754_finite s m e =>
      s = sx /\ -1074 <= e <= 971
      /\ Zpos m * 2 ^ (e + 1074) <= 2 ^ (Z.max B (-1074) + 1074)
  | _ => False
  end.

(** *** What the two float operations compute

    Correct rounding, stated in integers: the properties below hold of
    [py_truediv] and [py_round], which are defined by computation. *)

(** [f] is the binary64 float nearest to the quotient [n / d] of a
    non-negative by a positive integer, ties to the even mantissa.  It is
    a zero when the quotient is at most half the least positive float.
    Otherwise it is a positive float [m * 2 ^ e] of the format
    ([bounded]) whose distance to the quotient is at most half a unit of
    its last place, [2 ^ e]; at that distance [m] is even; and when [m]
    is the least mantissa, below which the floats lie twice as close, the
    float is at most a quarter of a unit above the quotient.  The
    distance times [d] is written in integers, the negative power of two
    on the side of [n]. *)
Definition float_nearest (n d : Z) (f : spec_float) : Prop :=
  match f with
  | S754_zero _ => 2 ^ 1075 * n <= d
  | S754_finite s m e =>
      s = false /\ bounded prec emax m e = true
      /\ 2 * Z.abs (Zpos m * 2 ^ Z.max 0 e * d - n * 2 ^ Z.max 0 (- e))
         <= 2 ^ Z.max 0 e * d
      /\ (2 * Z.abs (Zpos m * 2 ^ Z.max 0 e * d - n * 2 ^ Z.max 0 (- e))
          = 2 ^ Z.max 0 e * d -> Z.even (Zpos m) = true)
      /\ (Zpos m = 2 ^ 52 -> -1074 < e ->
          4 * (Zpos m * 2 ^ Z.max 0 e * d - n * 2 ^ Z.max 0 (- e))
          <= 2 ^ Z.max 0 e * d)
  | _ => False
  end.

(** [r] is [q], a non-negative float, rounded to two decimals: with [k]
    the integer nearest to a hundred times the exact value [m * 2 ^ e] of
    [q], the even one on a tie, [r] is the float nearest to [k / 100].
    A zero is left as it is. *)
Definition rounded_hundredths (q r : spec_float) : Prop :=
  match q with
  | S754_finite _ m e =>
      exists k,
        2 * Z.abs (2 ^ Z.max 0 (- e) * k - Zpos m * 2 ^ Z.max 0 e * 100)
        <= 2 ^ Z.max 0 (- e)
        /\ (2 * Z.abs (2 ^ Z.max 0 (- e) * k - Zpos m * 2 ^ Z.max 0 e * 100)
            = 2 ^ Z.max 0 (- e) -> Z.even k = true)
        /\ float_nearest k 100 r
  | _ => r = q
  end.

(** The state of a right shift by [j] digits of the mantissa [m0]: the
    digits shifted out are the rest, and the two flags say where the rest
    lies in its interval: nothing, below the half, the half, above it. *)
Definition shr_rest (m0 j : Z) (mrs : shr_record) : Prop :=
  let rest := m0 - shr_m mrs * 2 ^ j in
  0 <= shr_m mrs /\ 0 <= rest < 2 ^ j
  /\ match shr_r mrs, shr_s mrs with
     | false, false => rest = 0
     | false, true => 0 < rest /\ 2 * rest < 2 ^ j
     | true, false => 2 * rest = 2 ^ j
     | true, true => 2 ^ j < 2 * rest
     end.

(** The float nearest to 3.14. *)
Definition float_3_14 : spec_float := nearest_float false 314 100.

(** ** Sample inputs

    Route strings in the custom alphabet.  Their payloads are what
    [zlib.compress(data, 0)] writes for the four bytes of "week" and for no
    data at all; the third is a hundred "a" and three dots; the payload of
    the fourth is what [zlib.compress(data, 0)] writes for the eight bytes
    of "week one", 19 bytes, so that its ratio 19/8 = 2.375 lies halfway
    between two hundredths. *)
Definition week_route : str := lit "!Eaebbad7)3DLzwSeragT".
Definition empty_route : str := lit "!Eaebaad))Waaaae".
Definition dotted_route : str := repeat (ord "a") 100 ++ lit "...".
Definition tie_route : str := lit "!Eaebcad3)3DLzwSGB25LdGyddW".

(** ** The program around the decoder (source lines 100-177)

    The decoder prints progress lines while it works, and [main] chooses
    between a file and a literal argument.  Standard output is the list of
    the texts given to [print], in order.  The file system and
    [json.dumps] are parameters: a read gives the text of the file, or
    fails with [FileNotFoundError], or with another exception. *)

(** [str(n)] on an integer. *)
Definition str_of_int (n : Z) : str :=
  lit (DecimalString.NilZero.string_of_int (Z.to_int n)).

(** [s.endswith(p)] *)
Definition endswith (s p : str) : bool := startswith (rev s) (rev p).

(** [c.isspace()]: the characters [s.strip()] removes. *)
Definition isspace (c : char) : bool :=
  ((9 <=? c) && (c <=? 13)) || ((28 <=? c) && (c <=? 32))
  || (c =? 133) || (c =? 160) || (c =? 5760)
  || ((8192 <=? c) && (c <=? 8202))
  || (c =? 8232) || (c =? 8233) || (c =? 8239) || (c =? 8287)
  || (c =? 12288).

(** [s.lstrip()] and [s.strip()] *)
Fixpoint lstrip (s : str) : str :=
  match s with
  | [] => []
  | c :: r => if isspace c then lstrip r else s
  end.

Definition strip (s : str) : str := rev (lstrip (rev (lstrip s))).

(** Printing computations: the texts printed, then the value or the
    exception. *)
Definition io (A : Type) : Type := (list str * exc A)%type.

Definition io_bind {A B : Type} (m : io A) (k : A -> io B) : io B :=
  match snd m with
  | Ok a => (fst m ++ fst (k a), snd (k a))
  | Raise e => (fst m, Raise e)
  end.

Definition print (text : str) : io unit := ([text], Ok tt).
Definition io_lift {A : Type} (x : exc A) : io A := ([], x).

Notation "x <~ m ;; k" := (io_bind m (fun x => k))
  (at level 61, m at next level, right associativity).

(** What a read of a file gives: lines 157-165. *)
Inductive file_read :=
| NotFound
| ReadFailed (e : exn)
| FileText (text : str).

Section Program.

Variable zlib_decompress : bytes -> exc bytes.
Variable read_file : str -> file_read.
Variable json_dumps : pyval -> str.

(** The [try] block of lines 104-137 with its [print] calls. *)
Definition decode_steps_printing (route_string : str) : io pyval :=
  let encoded_data := strip_marker route_string in
  _ <~ print (lit "Decoding Base64...") ;;
  compressed_data <~ io_lift (decode_custom_b64 encoded_data) ;;
  _ <~ print (lit "Decoded " ++ str_of_int (len compressed_data)
              ++ lit " bytes") ;;
  _ <~ print (lit "Decompressing data...") ;;
  decompressed_data <~
    io_lift (decompress_data zlib_decompress compressed_data) ;;
  _ <~ print (lit "Decompressed to " ++ str_of_int (len decompressed_data)
              ++ lit " bytes") ;;
  _ <~ print (lit "Parsing serialized data...") ;;
  let serialized_str := latin1_decode decompressed_data in
  let parsed_data := parse_ace_serialized_data serialized_str in
  quotient <~
    io_lift (py_truediv (len compressed_data) (len decompressed_data)) ;;
  ratio <~ io_lift (py_round quotient 2) ;;
  (@nil str,
   Ok (success_result (len route_string) (len compressed_data)
         (len decompressed_data) ratio parsed_data)).

(** [decode_mdt_route_string] with what it prints. *)
Definition decode_printing (route_string : str) : list str * pyval :=
  let run := decode_steps_printing route_string in
  (fst run,
   match snd run with
   | Ok result => result
   | Raise e => failure_result e route_string
   end).

Definition USAGE : list str :=
  [ lit "Usage: python mdt_decoder.py <route_string_or_file>";
    lit "Example: python mdt_decoder.py rt1.txt";
    lit "Example: python mdt_decoder.py '!fBvtpUjmq0FrbH)aS9X...'" ].

(** The test of line 155: the argument names a file. *)
Definition looks_like_path (input_arg : str) : bool :=
  endswith input_arg (lit ".txt")
  || str_in (lit "/") input_arg
  || str_in (lit "\") input_arg.

(** Lines 170-174: decode and print the result. *)
Definition decode_and_print (route_string : str) : list str :=
  let '(printed, result) := decode_printing route_string in
  printed ++ [json_dumps result].

(** [main], on the argument vector: what it prints. *)
Definition main (argv : list str) : list str :=
  if negb (len argv =? 2) then USAGE
  else
    let input_arg := nth 1 argv [] in
    if looks_like_path input_arg
    then
      match read_file input_arg with
      | FileText text => decode_and_print (strip text)
      | NotFound =>
          [lit "Error: File '" ++ input_arg ++ lit "' not found"]
      | ReadFailed e => [lit "Error reading file: " ++ exn_msg e]
      end
    else decode_and_print input_arg.

End Program.

(** ** Auxiliary definitions of the further properties *)

(** A character of the alphabet. *)
Definition is_symbol (c : char) : bool :=
  match symbol_value c with Some _ => true | None => false end.

(** The bits of the three bytes that two neighbouring symbols take part
    in. *)
Definition quantum_bytes (v w : Z) : list bool * list bool * list bool :=
  (sextet_bits v ++ firstn 2 (sextet_bits w),
   skipn 2 (sextet_bits v) ++ firstn 4 (sextet_bits w),
   skipn 4 (sextet_bits v) ++ sextet_bits w).

(** A printable character of ASCII. *)
Definition printable (c : char) : Prop := 32 <= c <= 126.

(** Reading one escaped character back: the inverse of [escape_char],
    used to show that escaping loses nothing. *)
Definition hexval (c : char) : option Z :=
  index_of c (lit "0123456789abcdef") 0.

Fixpoint hexnum (digits : str) (acc : Z) : option Z :=
  match digits with
  | [] => Some acc
  | d :: r =>
      match hexval d with
      | Some v => hexnum r (16 * acc + v)
      | None => None
      end
  end.

Definition unescape_hex (n : nat) (s : str) : option (char * str) :=
  match hexnum (firstn n s) 0 with
  | Some v => Some (v, skipn n s)
  | None => None
  end.

Definition unescape_one (s : str) : option (char * str) :=
  match s with
  | [] => None
  | c :: r =>
      if negb (c =? ord "\") then Some (c, r)
      else
        match r with
        | [] => None
        | k :: r' =>
            if k =? ord "\" then Some (ord "\", r')
            else if k =? ord "t" then Some (9, r')
            else if k =? ord "n" then Some (10, r')
            else if k =? ord "r" then Some (13, r')
            else if k =? ord "x" then unescape_hex 2 r'
            else if k =? ord "u" then unescape_hex 4 r'
            else if k =? ord "U" then unescape_hex 8 r'
            else None
        end
  end.

(** A code point of Unicode. *)
Definition code_point (c : char) : Prop := 0 <= c < 1114112.

(** A float that is zero or positive and finite: neither an infinity nor
    a NaN nor negative. *)
Definition finite_nonneg (f : spec_float) : Prop :=
  match f with
  | S754_zero _ => True
  | S754_finite s _ _ => s = false
  | _ => False
  end.

(** A character of a route string: a symbol of the alphabet or the
    marker. *)
Definition route_char (c : char) : bool := is_symbol c || (c =? ord "!").

(** * Properties *)

(** ** Python primitives *)

Lemma len_app {A : Type} (a b : list A) : len (a ++ b) = len a + len b.
Proof. unfold len. rewrite length_app. lia. Qed.

Lemma len_nonneg {A : Type} (l : list A) : 0 <= len l.
Proof. unfold len. lia. Qed.

Lemma str_eqb_eq (a b : str) : str_eqb a b = true <-> a = b.
Proof.
  revert b. induction a as [|x a IH]; intros [|y b]; simpl; split;
    try congruence; try reflexivity.
  - intros H. apply andb_true_iff in H as [Hx Hr].
    apply Z.eqb_eq in Hx. apply IH in Hr. congruence.
  - intros H. injection H as -> ->. rewrite Z.eqb_refl. simpl. now apply IH.
Qed.

(** [rstrip] only removes a run of the stripped character from the end. *)
Lemma rstrip_decompose (s : str) (c : char) :
  exists k, s = rstrip s c ++ repeat c k.
Proof.
  induction s as [|a r [k IH]]; simpl.
  - exists 0%nat. reflexivity.
  - destruct (rstrip r c) as [|b r'] eqn:E.
    + destruct (Z.eqb_spec a c) as [->|Hne].
      * exists (S k). simpl. now rewrite IH at 1.
      * exists k. simpl. now rewrite IH at 1.
    + exists k. simpl. now rewrite IH at 1.
Qed.

Lemma py_range_chunks (n : Z) :
  0 <= n ->
  py_range 0 (n - 7) 8
  = map (fun k => 0 + Z.of_nat k * 8) (seq 0 (Z.to_nat (n / 8))).
Proof.
  intros Hn. unfold py_range. do 3 f_equal.
  replace (n - 7 - 0 + 8 - 1) with n by lia. reflexivity.
Qed.

(** ** Floats *)

(** [div_half_even] is a nearest integer of the quotient. *)
Lemma div_half_even_nearest (a b : Z) :
  0 < b -> 2 * Z.abs (b * div_half_even a b - a) <= b.
Proof.
  intros Hb. unfold div_half_even.
  pose proof (Z.div_mod a b ltac:(lia)) as Hd.
  pose proof (Z.mod_pos_bound a b Hb) as Hm.
  destruct (Z.ltb_spec (2 * (a mod b)) b).
  - lia.
  - destruct (Z.ltb_spec b (2 * (a mod b))); [lia|].
    destruct (Z.even (a / b)); lia.
Qed.

(** On a tie the even neighbour is taken. *)
Lemma div_half_even_tie (a b : Z) :
  0 < b -> 2 * (a mod b) = b -> Z.even (div_half_even a b) = true.
Proof.
  intros Hb Ht. unfold div_half_even.
  destruct (Z.ltb_spec (2 * (a mod b)) b); [lia|].
  destruct (Z.ltb_spec b (2 * (a mod b))); [lia|].
  destruct (Z.even (a / b)) eqn:E; [exact E|].
  rewrite Z.even_add, E. reflexivity.
Qed.

(** [round(x, 2)] of a finite float of mantissa [m] and exponent [e]: the
    result is the float nearest to [k / 100], where [k] is an integer
    nearest to a hundred times the value [m * 2 ^ e]. *)
Lemma py_round_hundredths (sx : bool) (m : positive) (e : Z) (r : spec_float) :
  py_round (S754_finite sx m e) 2 = Ok r ->
  exists k,
    2 * Z.abs (2 ^ Z.max 0 (- e) * k - Zpos m * 2 ^ Z.max 0 e * 100)
    <= 2 ^ Z.max 0 (- e)
    /\ r = (if k =? 0 then S754_zero sx else nearest_float sx k 100).
Proof.
  unfold py_round.
  replace (NDIGITS_MAX <? 2) with false by reflexivity.
  replace (2 <? NDIGITS_MIN) with false by reflexivity.
  cbv zeta. change (10 ^ Z.max 0 2) with 100.
  change (10 ^ Z.max 0 (- (2))) with 1. rewrite !Z.mul_1_r.
  set (num := Z.pos m * 2 ^ Z.max 0 e * 100).
  set (den := 2 ^ Z.max 0 (- e)).
  assert (Hden : 0 < den) by (apply Z.pow_pos_nonneg; lia).
  intros Hr. exists (div_half_even num den).
  split; [apply div_half_even_nearest, Hden|].
  destruct (div_half_even num den =? 0); [congruence|].
  destruct (nearest_float sx (div_half_even num den) 100); congruence.
Qed.

(** The quotient of two small integers is the IEEE 754 division of their
    floats, [SFdiv]: checked on every pair up to 48. *)
Lemma truediv_is_float_division :
  forallb
    (fun a =>
       forallb
         (fun b =>
            float_eqb (nearest_float false (Z.of_nat a) (Z.of_nat b))
                      (SFdiv prec emax (float_of_int (Z.of_nat a))
                                       (float_of_int (Z.of_nat b))))
         (seq 1 48))
    (seq 1 48) = true.
Proof. vm_compute. reflexivity. Qed.

(** *** Rounding cannot overflow on values below [2 ^ 1023]

    [binary_normalize] shifts the mantissa right until it has 53 digits,
    rounds it, and shifts once more when the rounding carried.  Following
    the number of digits through these steps bounds the result. *)

(** The digits of a mantissa are its binary logarithm plus one. *)

Lemma digits2_pos_log2 (p : positive) :
  Zpos (digits2_pos p) = Z.log2 (Zpos p) + 1.
Proof.
  assert (Hs : forall q, digits2_pos q = Pos.size q)
    by (induction q; simpl; congruence).
  destruct p; simpl; rewrite ?Hs; lia.
Qed.

Lemma Zdigits2_bounds (m : Z) :
  0 < m -> 2 ^ (Zdigits2 m - 1) <= m < 2 ^ Zdigits2 m.
Proof.
  intros Hm. destruct m as [|p|p]; try lia.
  unfold Zdigits2. rewrite digits2_pos_log2.
  replace (Z.log2 (Z.pos p) + 1 - 1) with (Z.log2 (Z.pos p)) by lia.
  replace (Z.log2 (Z.pos p) + 1) with (Z.succ (Z.log2 (Z.pos p))) by lia.
  apply Z.log2_spec. lia.
Qed.

(** A number below [2 ^ k] has at most [k] digits. *)
Lemma Zdigits2_le (m k : Z) :
  0 <= k -> 0 <= m < 2 ^ k -> Zdigits2 m <= k.
Proof.
  intros Hk [H0 Hm]. destruct (Z.eq_dec m 0) as [->|Hne]; [simpl; lia|].
  destruct (Zdigits2_bounds m ltac:(lia)) as [Hlo _].
  destruct (Z.le_gt_cases (Zdigits2 m) k) as [|Hgt]; [assumption|exfalso].
  assert (2 ^ k <= 2 ^ (Zdigits2 m - 1)) by (apply Z.pow_le_mono_r; lia).
  lia.
Qed.

(** One shift halves the mantissa, and [p] shifts divide it by [2 ^ p]. *)
Lemma shr_1_m (mrs : shr_record) :
  0 <= shr_m mrs -> shr_m (shr_1 mrs) = Z.div2 (shr_m mrs).
Proof.
  destruct mrs as [m r s]. simpl. intros Hm.
  destruct m as [|[p|p|]|p]; try reflexivity; lia.
Qed.

Lemma iter_shr_1_m (p : positive) (mrs : shr_record) :
  0 <= shr_m mrs ->
  shr_m (iter_pos shr_1 p mrs) = Z.shiftr (shr_m mrs) (Zpos p).
Proof.
  revert mrs. induction p as [p IH|p IH|]; intros mrs Hm; simpl iter_pos.
  - assert (H1 : 0 <= shr_m (shr_1 mrs))
      by (rewrite shr_1_m by assumption; apply Z.div2_nonneg; assumption).
    assert (H2 : 0 <= shr_m (iter_pos shr_1 p (shr_1 mrs)))
      by (rewrite IH by assumption; apply Z.shiftr_nonneg; assumption).
    rewrite IH, IH, shr_1_m by assumption.
    rewrite Z.div2_spec, !Z.shiftr_shiftr by lia. f_equal. lia.
  - assert (H2 : 0 <= shr_m (iter_pos shr_1 p mrs))
      by (rewrite IH by assumption; apply Z.shiftr_nonneg; assumption).
    rewrite IH, IH by assumption.
    rewrite Z.shiftr_shiftr by lia. f_equal. lia.
  - rewrite shr_1_m by assumption. apply Z.div2_spec.
Qed.

Lemma shiftr_below (m D n : Z) :
  0 <= D -> 0 <= n -> 0 <= m < 2 ^ D ->
  0 <= Z.shiftr m n /\ Z.shiftr m n + 1 <= 2 ^ Z.max (D - n) 0.
Proof.
  intros HD Hn [H0 Hm]. rewrite Z.shiftr_div_pow2 by assumption.
  assert (Hp : 0 < 2 ^ n) by (apply Z.pow_pos_nonneg; lia).
  split; [apply Z.div_pos; lia|].
  destruct (Z.le_gt_cases n D) as [Hle|Hgt].
  - rewrite Z.max_l by lia.
    assert (m / 2 ^ n < 2 ^ (D - n)); [|lia].
    apply Z.div_lt_upper_bound; [assumption|].
    rewrite <- Z.pow_add_r by lia. now replace (n + (D - n)) with D by lia.
  - rewrite Z.max_r by lia.
    assert (2 ^ D <= 2 ^ n) by (apply Z.pow_le_mono_r; lia).
    rewrite Z.div_small by lia. simpl. lia.
Qed.

(** Rounding keeps the shifted mantissa or takes the next one. *)
Lemma round_nearest_even_bounds (m : Z) (l : location) :
  m <= round_nearest_even m l <= m + 1.
Proof.
  unfold round_nearest_even.
  destruct l as [|[| |]]; try destruct (Z.even m); lia.
Qed.

(** A mantissa of at least 54 digits, of value below [2 ^ 1023], rounds to
    zero or to a finite float that is not larger than the next power of
    two. *)
Lemma binary_round_aux_below (sx : bool) (mx : positive) (ex : Z) :
  54 <= Zdigits2 (Zpos mx) ->
  Zdigits2 (Zpos mx) + ex <= 1023 ->
  float_below sx (Zdigits2 (Zpos mx) + ex)
              (binary_round_aux prec emax sx (Zpos mx) ex loc_Exact).
Proof.
  intros HD HB.
  set (D := Zdigits2 (Zpos mx)) in *. set (B := D + ex) in *.
  destruct (Zdigits2_bounds (Zpos mx) ltac:(lia)) as [_ Hmx]. fold D in Hmx.
  unfold binary_round_aux, shr_fexp. fold D. fold B.
  set (fe := fexp prec emax B).
  assert (Hfe : fe = Z.max (B - 53) (-1074)) by reflexivity.
  clearbody fe.
  assert (Hn1 : 0 < fe - ex) by (unfold B in Hfe; lia).
  destruct (fe - ex) as [|p|p] eqn:En1; try lia.
  cbn [shr shr_record_of_loc].
  set (mrs := iter_pos shr_1 p _).
  assert (Hm1 : shr_m mrs = Z.shiftr (Zpos mx) (Zpos p))
    by (apply iter_shr_1_m; simpl; lia).
  destruct (shiftr_below (Zpos mx) D (Zpos p) ltac:(lia) ltac:(lia) ltac:(lia))
    as [Hm1lo Hm1hi].
  rewrite <- Hm1 in Hm1lo, Hm1hi.
  pose proof (round_nearest_even_bounds (shr_m mrs) (loc_of_shr_record mrs))
    as Hr.
  set (m2 := round_nearest_even (shr_m mrs) (loc_of_shr_record mrs)) in *.
  replace (ex + Zpos p) with fe by lia.
  set (K := Z.max (D - Zpos p) 0) in *.
  assert (HK : 0 <= K <= 53) by (unfold K; lia).
  assert (HKfe : K + fe = Z.max B (-1074)) by (unfold K; lia).
  clearbody K m2.
  assert (Hd2 : Zdigits2 m2 <= K + 1).
  { apply Zdigits2_le; [lia|]. split; [lia|].
    replace (K + 1) with (Z.succ K) by lia. rewrite Z.pow_succ_r by lia.
    assert (0 < 2 ^ K) by (apply Z.pow_pos_nonneg; lia). lia. }
  assert (Hn2 : fexp prec emax (Zdigits2 m2 + fe) - fe <= 1).
  { change (fexp prec emax (Zdigits2 m2 + fe))
      with (Z.max (Zdigits2 m2 + fe - 53) (-1074)). lia. }
  assert (Hval : m2 * 2 ^ (fe + 1074) <= 2 ^ (Z.max B (-1074) + 1074)).
  { rewrite <- HKfe. replace (K + fe + 1074) with (K + (fe + 1074)) by lia.
    rewrite (Z.pow_add_r 2 K (fe + 1074)) by lia.
    apply Z.mul_le_mono_nonneg_r; [apply Z.pow_nonneg; lia | lia]. }
  destruct (fexp prec emax (Zdigits2 m2 + fe) - fe) as [|p2|p2] eqn:En2.
  - cbn [shr shr_record_of_loc shr_m].
    destruct m2 as [|q|q] eqn:Em2; [exact I| |lia].
    replace (fe <=? emax - prec) with true
      by (symmetry; apply Z.leb_le; unfold emax, prec; lia).
    cbn [float_below]. split; [reflexivity|]. split; [lia|exact Hval].
  - assert (p2 = 1%positive) by lia. subst p2.
    cbn [shr shr_record_of_loc iter_pos].
    rewrite shr_1_m by (simpl; lia). cbn [shr_m].
    assert (Hh : 0 <= Z.div2 m2 /\ 2 * Z.div2 m2 <= m2).
    { rewrite Z.div2_div. split; [apply Z.div_pos; lia|].
      pose proof (Z.mul_div_le m2 2 ltac:(lia)). lia. }
    destruct (Z.div2 m2) as [|q|q] eqn:Em3; [exact I| |lia].
    replace (fe + 1 <=? emax - prec) with true
      by (symmetry; apply Z.leb_le; unfold emax, prec; lia).
    cbn [float_below]. split; [reflexivity|]. split; [lia|].
    replace (fe + 1 + 1074) with (Z.succ (fe + 1074)) by lia.
    rewrite Z.pow_succ_r by lia.
    assert (0 <= 2 ^ (fe + 1074)) by (apply Z.pow_nonneg; lia).
    apply Z.le_trans with (m2 * 2 ^ (fe + 1074)); [|exact Hval].
    rewrite Z.mul_assoc. apply Z.mul_le_mono_nonneg_r; lia.
  - cbn [shr shr_record_of_loc shr_m].
    destruct m2 as [|q|q] eqn:Em2; [exact I| |lia].
    replace (fe <=? emax - prec) with true
      by (symmetry; apply Z.leb_le; unfold emax, prec; lia).
    cbn [float_below]. split; [reflexivity|]. split; [lia|exact Hval].
Qed.

Lemma float_below_mono (sx : bool) (B B' : Z) (f : spec_float) :
  B <= B' -> float_below sx B f -> float_below sx B' f.
Proof.
  intros HB. destruct f as [s|s| |s m e]; simpl; auto.
  intros [Hs [He Hv]]. split; [exact Hs|]. split; [exact He|].
  eapply Z.le_trans; [exact Hv|]. apply Z.pow_le_mono_r; lia.
Qed.

Lemma binary_normalize_below (m e : Z) :
  0 < m -> 54 <= Zdigits2 m -> Zdigits2 m + e <= 1023 ->
  float_below false (Zdigits2 m + e) (binary_normalize prec emax m e false).
Proof.
  intros Hm HD HB. destruct m as [|mx|mx]; try lia.
  unfold binary_normalize, binary_round, shl_align.
  change (Zpos (digits2_pos mx)) with (Zdigits2 (Zpos mx)).
  assert (Hgap : 0 < fexp prec emax (Zdigits2 (Zpos mx) + e) - e).
  { change (fexp prec emax (Zdigits2 (Zpos mx) + e))
      with (Z.max (Zdigits2 (Zpos mx) + e - 53) (-1074)). lia. }
  destruct (fexp prec emax (Zdigits2 (Zpos mx) + e) - e); try lia.
  apply binary_round_aux_below; assumption.
Qed.

(** The quotient of two positive integers is finite and at most
    [2 ^ (log2 n - log2 d + 1)]. *)
Lemma nearest_float_below (n d : Z) :
  0 < n -> 0 < d -> Z.log2 n - Z.log2 d + 1 <= 1023 ->
  float_below false (Z.log2 n - Z.log2 d + 1) (nearest_float false n d).
Proof.
  intros Hn Hd HL. unfold nearest_float. cbv zeta.
  set (s := Z.max 0 (Z.log2 d - Z.log2 n + 56)).
  set (L := Z.log2 n - Z.log2 d) in *.
  assert (Hs : 0 <= s /\ 57 <= L + 1 + s) by (unfold s, L; lia).
  destruct (Z.log2_spec n Hn) as [Hn1 Hn2].
  destruct (Z.log2_spec d Hd) as [Hd1 Hd2].
  pose proof (Z.log2_nonneg n) as Hln. pose proof (Z.log2_nonneg d) as Hld.
  assert (Hps : 0 < 2 ^ s) by (apply Z.pow_pos_nonneg; lia).
  set (q := n * 2 ^ s / d).
  assert (Hqlo : 2 ^ 55 <= q).
  { apply Z.div_le_lower_bound; [assumption|].
    apply Z.le_trans with (2 ^ (Z.log2 n + s)).
    - apply Z.le_trans with (2 ^ (Z.log2 d + 56)).
      + replace (Z.log2 d + 56) with (Z.succ (Z.log2 d) + 55) by lia.
        rewrite Z.pow_add_r by lia.
        apply Z.mul_le_mono_nonneg_r; [apply Z.pow_nonneg|]; lia.
      + apply Z.pow_le_mono_r; unfold s; lia.
    - rewrite Z.pow_add_r by lia. apply Z.mul_le_mono_nonneg_r; lia. }
  assert (Hqhi : q < 2 ^ (L + 1 + s)).
  { apply Z.div_lt_upper_bound; [assumption|].
    apply Z.lt_le_trans with (2 ^ Z.succ (Z.log2 n) * 2 ^ s).
    - apply Z.mul_lt_mono_pos_r; assumption.
    - rewrite <- Z.pow_add_r by lia.
      apply Z.le_trans with (2 ^ Z.log2 d * 2 ^ (L + 1 + s)).
      + rewrite <- Z.pow_add_r by lia. apply Z.pow_le_mono_r; unfold L; lia.
      + apply Z.mul_le_mono_nonneg_r; [apply Z.pow_nonneg|]; lia. }
  set (m := 2 * q + (if n * 2 ^ s mod d =? 0 then 0 else 1)).
  assert (Hm : 2 ^ 56 <= m < 2 ^ (L + 2 + s)).
  { replace (L + 2 + s) with (Z.succ (L + 1 + s)) by lia.
    rewrite Z.pow_succ_r by lia. change (2 ^ 56) with (2 * 2 ^ 55).
    unfold m. destruct (n * 2 ^ s mod d =? 0); lia. }
  assert (Hdig : 57 <= Zdigits2 m <= L + 2 + s).
  { split; [|apply Zdigits2_le; lia].
    destruct (Zdigits2_bounds m ltac:(lia)) as [_ Hup].
    destruct (Z.le_gt_cases 57 (Zdigits2 m)) as [|Hlt]; [assumption|exfalso].
    assert (2 ^ Zdigits2 m <= 2 ^ 56) by (apply Z.pow_le_mono_r; lia).
    lia. }
  apply (float_below_mono false (Zdigits2 m + (- s - 1))); [lia|].
  apply binary_normalize_below; lia.
Qed.

(** True division of a non-negative by a positive integer neither
    overflows nor fails. *)
Lemma py_truediv_below (a b : Z) :
  0 <= a -> 0 < b -> Z.log2 a - Z.log2 b + 1 <= 1023 ->
  exists q, py_truediv a b = Ok q
            /\ float_below false (Z.log2 a - Z.log2 b + 1) q.
Proof.
  intros Ha Hb HL. unfold py_truediv.
  replace (b =? 0) with false by (symmetry; apply Z.eqb_neq; lia).
  replace (a <? 0) with false by (symmetry; apply Z.ltb_ge; lia).
  replace (b <? 0) with false by (symmetry; apply Z.ltb_ge; lia).
  cbn [xorb]. destruct (Z.eqb_spec a 0) as [->|Hne].
  - eexists. split; [reflexivity|exact I].
  - rewrite !Z.abs_eq by lia.
    pose proof (nearest_float_below a b ltac:(lia) Hb HL) as Hq.
    destruct (nearest_float false a b) as [s|s| |s m e]; simpl in Hq;
      try contradiction; eexists; (split; [reflexivity|]); simpl; auto.
Qed.

(** The nearest integer is at most one above the quotient. *)
Lemma div_half_even_upper (a b : Z) :
  0 <= a -> 0 < b ->
  0 <= div_half_even a b /\ b * div_half_even a b <= a + b.
Proof.
  intros Ha Hb. unfold div_half_even.
  pose proof (Z.div_mod a b ltac:(lia)) as Hd.
  pose proof (Z.mod_pos_bound a b Hb) as Hm.
  assert (0 <= a / b) by (apply Z.div_pos; lia).
  destruct (2 * (a mod b) <? b); [lia|].
  destruct (b <? 2 * (a mod b)); [lia|].
  destruct (Z.even (a / b)); lia.
Qed.

(** Rounding a float of at most [2 ^ 1000] to two decimals neither
    overflows nor fails. *)
Lemma py_round_below (q : spec_float) (B : Z) :
  float_below false B q -> B <= 1000 -> exists r, py_round q 2 = Ok r.
Proof.
  intros Hq HB. destruct q as [s|s| |s m e]; simpl in Hq; try contradiction.
  - eexists. reflexivity.
  - destruct Hq as (-> & He & Hv). unfold py_round.
    replace (NDIGITS_MAX <? 2) with false by reflexivity.
    replace (2 <? NDIGITS_MIN) with false by reflexivity.
    cbv zeta. change (10 ^ Z.max 0 2) with 100.
    change (10 ^ Z.max 0 (- (2))) with 1.
    set (num := Z.pos m * 2 ^ Z.max 0 e * 100).
    set (den := 2 ^ Z.max 0 (- e) * 1).
    set (k := div_half_even num den).
    destruct (k =? 0) eqn:Ek; [eexists; reflexivity|].
    apply Z.eqb_neq in Ek.
    assert (Hden : 0 < den)
      by (unfold den; rewrite Z.mul_1_r; apply Z.pow_pos_nonneg; lia).
    assert (Hnum : 0 <= num).
    { unfold num. apply Z.mul_nonneg_nonneg; [|lia].
      apply Z.mul_nonneg_nonneg; [lia|apply Z.pow_nonneg; lia]. }
    destruct (div_half_even_upper num den Hnum Hden) as [Hk0 Hk1].
    fold k in Hk0, Hk1.
    assert (Hk : k < 2 ^ 1008).
    { set (U := 2 ^ Z.max 0 e) in *. set (D := 2 ^ Z.max 0 (- e)) in *.
      set (P := 2 ^ (e + 1074)) in *. set (Q := 2 ^ 1074).
      set (C := 2 ^ 1000).
      assert (HU : 0 < U) by (apply Z.pow_pos_nonneg; lia).
      assert (HP : 0 < P) by (apply Z.pow_pos_nonneg; lia).
      assert (HQ : 0 < Q) by reflexivity.
      assert (HW : U * Q = D * P).
      { unfold U, Q, D, P. rewrite <- !Z.pow_add_r by lia. f_equal. lia. }
      assert (HmP : Z.pos m * P <= C * Q).
      { eapply Z.le_trans; [exact Hv|]. unfold C, Q.
        rewrite <- Z.pow_add_r by lia. apply Z.pow_le_mono_r; lia. }
      assert (Hk2 : den * k * P <= (num + den) * P)
        by (apply Z.mul_le_mono_nonneg_r; lia).
      assert (HkW : k * (U * Q) <= (100 * C + 1) * (U * Q)).
      { unfold num, den in Hk2. fold U D in Hk2.
        clearbody U D P Q C k. nia. }
      apply Z.mul_le_mono_pos_r in HkW; [|lia].
      apply Z.le_lt_trans with (100 * C + 1); [exact HkW|]. reflexivity. }
    assert (Hlog : Z.log2 (k * 1) - Z.log2 100 + 1 <= 1023).
    { rewrite Z.mul_1_r. change (Z.log2 100) with 6.
      assert (Z.log2 k < 1008) by (apply Z.log2_lt_pow2; lia). lia. }
    pose proof (nearest_float_below (k * 1) 100 ltac:(lia) ltac:(lia) Hlog)
      as Hr.
    destruct (nearest_float false (k * 1) 100) as [s|s| |s m' e']; simpl in Hr;
      try contradiction; eexists; reflexivity.
Qed.

(** *** Division and rounding are correctly rounded

    [binary_normalize] shifts the mantissa right and keeps two flags for
    the digits shifted out, the first of them and the others; rounding to
    nearest reads the flags.  The flags are followed through the shifts,
    then the sticky bit of the quotient, then the exponent of the
    result. *)

Lemma shr_1_rest (m0 j : Z) (mrs : shr_record) :
  0 <= j -> shr_rest m0 j mrs -> shr_rest m0 (j + 1) (shr_1 mrs).
Proof.
  intros Hj. unfold shr_rest. cbv zeta.
  replace (j + 1) with (Z.succ j) by lia. rewrite Z.pow_succ_r by lia.
  assert (HP : 0 < 2 ^ j) by (apply Z.pow_pos_nonneg; lia).
  set (P := 2 ^ j) in *. clearbody P.
  destruct mrs as [m r s]. cbn [shr_m shr_r shr_s].
  destruct m as [|[p|p|]|p]; cbn [shr_1 shr_m shr_r shr_s];
    try rewrite (Pos2Z.inj_xI p); try rewrite (Pos2Z.inj_xO p);
    destruct r, s; cbn [orb]; lia.
Qed.

Lemma iter_shr_1_rest (m0 : Z) (p : positive) :
  forall (j : Z) (mrs : shr_record),
    0 <= j -> shr_rest m0 j mrs ->
    shr_rest m0 (j + Zpos p) (iter_pos shr_1 p mrs).
Proof.
  induction p as [p IH|p IH|]; intros j mrs Hj H; cbn [iter_pos].
  - replace (j + Zpos p~1) with (j + 1 + Zpos p + Zpos p) by lia.
    apply IH; [lia|]. apply IH; [lia|]. now apply shr_1_rest.
  - replace (j + Zpos p~0) with (j + Zpos p + Zpos p) by lia.
    apply IH; [lia|]. now apply IH.
  - now apply shr_1_rest.
Qed.

(** Rounding the shifted mantissa gives the multiple of [2 ^ k] nearest
    to the mantissa, the even one on a tie. *)
Lemma round_nearest_even_rest (m0 k : Z) (mrs : shr_record) :
  0 <= k -> shr_rest m0 k mrs ->
  let M := round_nearest_even (shr_m mrs) (loc_of_shr_record mrs) in
  shr_m mrs <= M <= shr_m mrs + 1
  /\ 2 * Z.abs (M * 2 ^ k - m0) <= 2 ^ k
  /\ (2 * Z.abs (M * 2 ^ k - m0) = 2 ^ k -> Z.even M = true).
Proof.
  intros Hk. unfold shr_rest. cbv zeta.
  assert (HP : 0 < 2 ^ k) by (apply Z.pow_pos_nonneg; lia).
  set (P := 2 ^ k) in *. clearbody P.
  destruct mrs as [m r s]. cbn [shr_m shr_r shr_s].
  destruct r, s; cbn [loc_of_shr_record round_nearest_even];
    intros (Hm & Hr & Hl).
  - split; [lia|]. split; [lia|]. intros Ht. lia.
  - destruct (Z.even m) eqn:E.
    + split; [lia|]. split; [lia|]. intros _. exact E.
    + split; [lia|]. split; [lia|]. intros _.
      rewrite Z.even_add, E. reflexivity.
  - split; [lia|]. split; [lia|]. intros Ht. lia.
  - split; [lia|]. split; [lia|]. intros Ht. lia.
Qed.

(** A sticky last bit stands for every digit below it: the multiple of
    [4 * G] nearest to the quotient with its sticky bit is the one nearest
    to twice the exact quotient, with the same ties. *)
Lemma sticky_nearest (pn d Q rem M G : Z) :
  0 < d -> pn = Q * d + rem -> 0 <= rem < d -> 0 < G ->
  2 * Z.abs (M * (4 * G) - (2 * Q + (if rem =? 0 then 0 else 1))) <= 4 * G ->
  (2 * Z.abs (M * (4 * G) - (2 * Q + (if rem =? 0 then 0 else 1))) = 4 * G ->
   Z.even M = true) ->
  2 * Z.abs (M * (4 * G) * d - 2 * pn) <= 4 * G * d
  /\ (2 * Z.abs (M * (4 * G) * d - 2 * pn) = 4 * G * d -> Z.even M = true).
Proof.
  intros Hd Hpn Hrem HG. subst pn.
  destruct (Z.eqb_spec rem 0) as [->|Hne].
  - set (u := M * (4 * G) - (2 * Q + 0)).
    replace (M * (4 * G) * d - 2 * (Q * d + 0)) with (u * d)
      by (unfold u; ring).
    rewrite Z.abs_mul, (Z.abs_eq d) by lia. intros Hle Htie.
    split.
    + rewrite Z.mul_assoc. apply Z.mul_le_mono_nonneg_r; lia.
    + intros E. apply Htie. rewrite Z.mul_assoc in E.
      apply Z.mul_reg_r in E; lia.
  - intros Hle _.
    assert (HA : 4 * (M * G) - 2 * Q - 2 * G <= 0) by lia.
    assert (HB : 0 <= 4 * (M * G) - 2 * Q + 2 * G - 2) by lia.
    assert (HAd : (4 * (M * G) - 2 * Q - 2 * G) * d <= 0)
      by (apply Z.mul_nonpos_nonneg; lia).
    assert (HBd : 0 <= (4 * (M * G) - 2 * Q + 2 * G - 2) * d)
      by (apply Z.mul_nonneg_nonneg; lia).
    split; [lia|]. intros E. lia.
Qed.

(** A number of at least [2 ^ k] has more than [k] digits. *)
Lemma Zdigits2_ge (m k : Z) : 0 <= k -> 2 ^ k <= m -> k + 1 <= Zdigits2 m.
Proof.
  intros Hk Hm.
  assert (Hp : 0 < 2 ^ k) by (apply Z.pow_pos_nonneg; lia).
  destruct (Zdigits2_bounds m ltac:(lia)) as [_ Hup].
  destruct (Z.le_gt_cases (k + 1) (Zdigits2 m)) as [|Hlt]; [assumption|].
  exfalso. assert (2 ^ Zdigits2 m <= 2 ^ k) by (apply Z.pow_le_mono_r; lia).
  lia.
Qed.

(** Rounding a mantissa of at least 55 digits: the result is the multiple
    [M] of [2 ^ (fe - ex)] nearest to the mantissa, the even one on a tie,
    as a float of the format, where [fe] is the exponent the format gives
    to the value. *)
Lemma binary_round_aux_nearest (mx : positive) (ex : Z) :
  55 <= Zdigits2 (Zpos mx) ->
  let fe := Z.max (Zdigits2 (Zpos mx) + ex - 53) (-1074) in
  exists M,
    2 * Z.abs (M * 2 ^ (fe - ex) - Zpos mx) <= 2 ^ (fe - ex)
    /\ (2 * Z.abs (M * 2 ^ (fe - ex) - Zpos mx) = 2 ^ (fe - ex) ->
        Z.even M = true)
    /\ (-1074 < fe -> 2 ^ 52 <= M /\ 2 ^ 52 * 2 ^ (fe - ex) <= Zpos mx)
    /\ match binary_round_aux prec emax false (Zpos mx) ex loc_Exact with
       | S754_zero _ => M = 0 /\ fe = -1074
       | S754_finite s m e =>
           s = false /\ bounded prec emax m e = true
           /\ ((e = fe /\ Zpos m = M)
               \/ (e = fe + 1 /\ 2 * Zpos m = M /\ Z.even (Zpos m) = true))
       | S754_infinity _ => True
       | S754_nan => False
       end.
Proof.
  intros HD. cbv zeta.
  set (D := Zdigits2 (Zpos mx)) in *.
  destruct (Zdigits2_bounds (Zpos mx) ltac:(lia)) as [Hlo Hmx].
  fold D in Hlo, Hmx.
  unfold binary_round_aux, shr_fexp. fold D.
  change (fexp prec emax (D + ex)) with (Z.max (D + ex - 53) (-1074)).
  set (fe := Z.max (D + ex - 53) (-1074)).
  assert (Hfe : fe = Z.max (D + ex - 53) (-1074)) by reflexivity.
  clearbody fe.
  assert (Hn1 : 2 <= fe - ex) by lia.
  destruct (fe - ex) as [|p|p] eqn:En1; try lia.
  cbn [shr shr_record_of_loc].
  set (mrs := iter_pos shr_1 p _).
  assert (Hrest : shr_rest (Zpos mx) (Zpos p) mrs).
  { replace (Zpos p) with (0 + Zpos p) at 1 by lia.
    apply iter_shr_1_rest; [lia|].
    unfold shr_rest. cbn [shr_m shr_r shr_s]. cbv zeta.
    change (2 ^ 0) with 1. lia. }
  assert (Hm1 : shr_m mrs = Z.shiftr (Zpos mx) (Zpos p))
    by (apply iter_shr_1_m; simpl; lia).
  destruct (shiftr_below (Zpos mx) D (Zpos p) ltac:(lia) ltac:(lia) ltac:(lia))
    as [Hm1lo Hm1hi].
  rewrite <- Hm1 in Hm1lo, Hm1hi.
  destruct (round_nearest_even_rest (Zpos mx) (Zpos p) mrs ltac:(lia) Hrest)
    as (HMb & HMn & HMt).
  set (M := round_nearest_even (shr_m mrs) (loc_of_shr_record mrs)) in *.
  replace (ex + Zpos p) with fe by lia.
  set (K := Z.max (D - Zpos p) 0) in *.
  assert (HK : 0 <= K <= 53) by (unfold K; lia).
  assert (HK53 : 2 ^ K <= 2 ^ 53) by (apply Z.pow_le_mono_r; lia).
  assert (Hshr : -1074 < fe -> 2 ^ 52 <= shr_m mrs).
  { intros Hnorm. assert (Hp : Zpos p = D - 53) by lia.
    rewrite Hm1, Z.shiftr_div_pow2 by lia.
    apply Z.div_le_lower_bound; [apply Z.pow_pos_nonneg; lia|].
    rewrite <- Z.pow_add_r by lia.
    replace (Zpos p + 52) with (D - 1) by lia. exact Hlo. }
  assert (Hlow : -1074 < fe -> 2 ^ 52 <= M)
    by (intros Hn; specialize (Hshr Hn); lia).
  exists M. split; [exact HMn|]. split; [exact HMt|].
  split.
  { intros Hnorm. split; [auto|].
    destruct Hrest as (_ & [Hr0 _] & _).
    apply Z.le_trans with (shr_m mrs * 2 ^ Zpos p); [|lia].
    apply Z.mul_le_mono_nonneg_r; [apply Z.pow_nonneg; lia|auto]. }
  assert (Hd2 : Zdigits2 M <= K + 1).
  { apply Zdigits2_le; [lia|]. split; [lia|].
    replace (K + 1) with (Z.succ K) by lia. rewrite Z.pow_succ_r by lia.
    assert (0 < 2 ^ K) by (apply Z.pow_pos_nonneg; lia). lia. }
  assert (Hd2lo : -1074 < fe -> 53 <= Zdigits2 M).
  { intros Hnorm. apply (Zdigits2_ge M 52); [lia|auto]. }
  change (fexp prec emax (Zdigits2 M + fe))
    with (Z.max (Zdigits2 M + fe - 53) (-1074)).
  assert (Hn2 : Z.max (Zdigits2 M + fe - 53) (-1074) - fe <= 1) by lia.
  assert (Hcanon : forall q, M = Zpos q ->
            Z.max (Zdigits2 M + fe - 53) (-1074) - fe <= 0 ->
            canonical_mantissa prec emax q fe = true).
  { intros q Hq Hle. unfold canonical_mantissa. apply Z.eqb_eq.
    change (fexp prec emax (Zpos (digits2_pos q) + fe))
      with (Z.max (Zdigits2 (Zpos q) + fe - 53) (-1074)).
    rewrite <- Hq. lia. }
  destruct (Z.max (Zdigits2 M + fe - 53) (-1074) - fe) as [|p2|p2] eqn:En2.
  - cbn [shr shr_record_of_loc shr_m].
    destruct M as [|q|q] eqn:EM; [split; lia| |lia].
    destruct (Z.leb_spec fe (emax - prec)) as [Hle|Hgt]; [|exact I].
    split; [reflexivity|]. split; [|left; split; reflexivity].
    unfold bounded. rewrite (Hcanon q eq_refl) by lia.
    apply Z.leb_le. exact Hle.
  - assert (p2 = 1%positive) by lia. subst p2.
    assert (HM53 : M = 2 ^ 53).
    { assert (54 <= Zdigits2 M) by lia.
      assert (0 < M).
      { destruct M; simpl in *; lia. }
      destruct (Zdigits2_bounds M ltac:(lia)) as [HMlo _].
      assert (2 ^ 53 <= 2 ^ (Zdigits2 M - 1))
        by (apply Z.pow_le_mono_r; lia).
      lia. }
    cbn [shr shr_record_of_loc iter_pos].
    rewrite shr_1_m by (cbn [shr_m]; lia). cbn [shr_m].
    rewrite HM53. change (Z.div2 (2 ^ 53)) with (Zpos 4503599627370496).
    cbv iota beta.
    destruct (Z.leb_spec (fe + 1) (emax - prec)) as [Hle|Hgt]; [|exact I].
    split; [reflexivity|]. split.
    + unfold bounded, canonical_mantissa. apply andb_true_iff. split.
      * apply Z.eqb_eq.
        change (fexp prec emax (Zpos (digits2_pos 4503599627370496)
                                + (fe + 1)))
          with (Z.max (53 + (fe + 1) - 53) (-1074)). lia.
      * apply Z.leb_le. exact Hle.
    + right. split; [reflexivity|]. split; reflexivity.
  - cbn [shr shr_record_of_loc shr_m].
    destruct M as [|q|q] eqn:EM; [split; lia| |lia].
    destruct (Z.leb_spec fe (emax - prec)) as [Hle|Hgt]; [|exact I].
    split; [reflexivity|]. split; [|left; split; reflexivity].
    unfold bounded. rewrite (Hcanon q eq_refl) by lia.
    apply Z.leb_le. exact Hle.
Qed.

(** The quotient with its sticky bit has at least 57 digits. *)
Lemma sticky_quotient_large (n d : Z) :
  0 < n -> 0 < d ->
  let s := Z.max 0 (Z.log2 d - Z.log2 n + 56) in
  2 ^ 56 <= 2 * (n * 2 ^ s / d) + (if n * 2 ^ s mod d =? 0 then 0 else 1).
Proof.
  intros Hn Hd. cbv zeta.
  set (s := Z.max 0 (Z.log2 d - Z.log2 n + 56)).
  destruct (Z.log2_spec n Hn) as [Hn1 Hn2].
  destruct (Z.log2_spec d Hd) as [Hd1 Hd2].
  pose proof (Z.log2_nonneg n) as Hln. pose proof (Z.log2_nonneg d) as Hld.
  assert (Hps : 0 < 2 ^ s) by (apply Z.pow_pos_nonneg; lia).
  assert (Hqlo : 2 ^ 55 <= n * 2 ^ s / d).
  { apply Z.div_le_lower_bound; [assumption|].
    apply Z.le_trans with (2 ^ (Z.log2 n + s)).
    - apply Z.le_trans with (2 ^ (Z.log2 d + 56)).
      + replace (Z.log2 d + 56) with (Z.succ (Z.log2 d) + 55) by lia.
        rewrite Z.pow_add_r by lia.
        apply Z.mul_le_mono_nonneg_r; [apply Z.pow_nonneg|]; lia.
      + apply Z.pow_le_mono_r; unfold s; lia.
    - rewrite Z.pow_add_r by lia. apply Z.mul_le_mono_nonneg_r; lia. }
  change (2 ^ 56) with (2 * 2 ^ 55).
  destruct (n * 2 ^ s mod d =? 0); lia.
Qed.

(** [nearest_float] is what its name says: unless the quotient is too
    large for a float, the result is the binary64 float nearest to
    [n / d], ties to even. *)
Lemma nearest_float_nearest (n d : Z) :
  0 < n -> 0 < d ->
  match nearest_float false n d with
  | S754_infinity _ => True
  | f => float_nearest n d f
  end.
Proof.
  intros Hn Hd. pose proof (sticky_quotient_large n d Hn Hd) as Hm.
  unfold nearest_float. cbv zeta in *.
  set (s := Z.max 0 (Z.log2 d - Z.log2 n + 56)) in *.
  assert (Hs : 0 <= s) by (unfold s; lia).
  set (pn := n * 2 ^ s) in *.
  set (Q := pn / d) in *. set (rem := pn mod d) in *.
  assert (Hpn : pn = Q * d + rem).
  { unfold Q, rem. rewrite Z.mul_comm. apply Z.div_mod. lia. }
  assert (Hrem : 0 <= rem < d) by (apply Z.mod_pos_bound; lia).
  set (m0 := 2 * Q + (if rem =? 0 then 0 else 1)) in *.
  assert (Hm0 : m0 = 2 * Q + (if rem =? 0 then 0 else 1)) by reflexivity.
  clearbody m0 Q rem.
  assert (HD : 57 <= Zdigits2 m0) by (apply (Zdigits2_ge m0 56); lia).
  change (2 ^ 56) with 72057594037927936 in Hm.
  destruct m0 as [|mx|mx]; try lia.
  unfold binary_normalize, binary_round, shl_align.
  change (Zpos (digits2_pos mx)) with (Zdigits2 (Zpos mx)).
  change (fexp prec emax (Zdigits2 (Zpos mx) + (- s - 1)))
    with (Z.max (Zdigits2 (Zpos mx) + (- s - 1) - 53) (-1074)).
  destruct (binary_round_aux_nearest mx (- s - 1) ltac:(lia))
    as (M & HMn & HMt & Hnorm & Hres).
  set (fe := Z.max (Zdigits2 (Zpos mx) + (- s - 1) - 53) (-1074)) in *.
  assert (Hk : 2 <= fe - (- s - 1)) by (unfold fe; lia).
  destruct (fe - (- s - 1)) as [|k|k] eqn:Ek; try lia.
  set (G := 2 ^ (Zpos k - 2)).
  assert (HG : 0 < G) by (apply Z.pow_pos_nonneg; lia).
  assert (HP : 2 ^ Zpos k = 4 * G).
  { unfold G. change 4 with (2 ^ 2). rewrite <- Z.pow_add_r by lia.
    f_equal. lia. }
  rewrite HP in HMn, HMt, Hnorm.
  destruct (sticky_nearest pn d Q rem M G Hd Hpn Hrem HG) as [Hle Htie].
  { rewrite <- Hm0. exact HMn. }
  { rewrite <- Hm0. exact HMt. }
  assert (Hbelow : -1074 < fe -> M = 2 ^ 52 ->
                   M * (4 * G) * d - 2 * pn <= 0).
  { intros Hf HM. destruct (Hnorm Hf) as [_ Hlow].
    rewrite <- HM, Hm0 in Hlow.
    assert (HQ : 4 * (M * G) <= 2 * Q) by (destruct (rem =? 0); lia).
    assert (0 <= (2 * Q - 4 * (M * G)) * d)
      by (apply Z.mul_nonneg_nonneg; lia).
    rewrite Hpn. lia. }
  clear HMn HMt.
  assert (H2s : 2 * 2 ^ s = 2 ^ (s + 1)).
  { replace (s + 1) with (Z.succ s) by lia. now rewrite Z.pow_succ_r. }
  destruct (binary_round_aux prec emax false (Zpos mx) (- s - 1) loc_Exact)
    as [sz|sz| |sf m e]; cbn [float_nearest]; try exact I; try contradiction.
  - destruct Hres as [-> Hfe].
    assert (Hsk : s = Zpos k + 1073) by lia.
    assert (HpnG : pn = n * (4 * G * 2 ^ 1073)).
    { unfold pn. rewrite Hsk, Z.pow_add_r, HP by lia. reflexivity. }
    apply (Z.mul_le_mono_pos_r _ _ (4 * G)); [lia|].
    change (2 ^ 1075) with (4 * 2 ^ 1073).
    set (C := 2 ^ 1073) in *.
    assert (HC : 0 < C) by reflexivity. clearbody C.
    assert (0 <= n * G * C)
      by (apply Z.mul_nonneg_nonneg; [apply Z.mul_nonneg_nonneg|]; lia).
    rewrite HpnG in Hle. lia.
  - destruct Hres as (-> & Hb & Hme).
    split; [reflexivity|]. split; [exact Hb|].
    set (A := 2 ^ Z.max 0 e). set (B := 2 ^ Z.max 0 (- e)).
    set (c := s + 1 - Z.max 0 (- e)).
    assert (Hc : 0 <= c) by (unfold c; lia).
    set (C := 2 ^ c).
    assert (HA : 0 < A) by (apply Z.pow_pos_nonneg; lia).
    assert (HC : 0 < C) by (apply Z.pow_pos_nonneg; lia).
    assert (F1 : 2 ^ (e + s + 1) = A * C).
    { unfold A, C, c. rewrite <- Z.pow_add_r by lia. f_equal. lia. }
    assert (F2 : 2 ^ (s + 1) = B * C).
    { unfold B, C, c. rewrite <- Z.pow_add_r by lia. f_equal. lia. }
    assert (FP : M * (4 * G) = Zpos m * (A * C)
                 /\ 4 * G <= A * C
                 /\ (e = fe -> 4 * G = A * C)
                 /\ (e = fe + 1 -> A * C = 2 * (4 * G))).
    { rewrite <- HP, <- F1. destruct Hme as [[-> <-]|(-> & <- & _)].
      - replace (fe + s + 1) with (Zpos k) by lia.
        split; [reflexivity|]. split; [lia|]. split; [reflexivity|lia].
      - replace (fe + 1 + s + 1) with (Z.succ (Zpos k)) by lia.
        rewrite Z.pow_succ_r by lia.
        assert (0 < 2 ^ Zpos k) by (apply Z.pow_pos_nonneg; lia).
        split; [ring|]. split; [lia|]. split; [lia|reflexivity]. }
    destruct FP as (FM & FPle & FPeq & FPcarry).
    set (X := Zpos m * A * d - n * B).
    assert (HX : M * (4 * G) * d - 2 * pn = X * C).
    { rewrite FM. unfold pn, X.
      replace (2 * (n * 2 ^ s)) with (n * (2 * 2 ^ s)) by ring.
      rewrite H2s, F2. ring. }
    rewrite HX, Z.abs_mul, (Z.abs_eq C) in Hle, Htie by lia.
    assert (HGd : 4 * G * d <= A * d * C).
    { replace (A * d * C) with (A * C * d) by ring.
      apply Z.mul_le_mono_nonneg_r; lia. }
    split; [|split].
    + apply (Z.mul_le_mono_pos_r _ _ C HC). lia.
    + intros E. destruct Hme as [[He Hm']|(_ & _ & Hev)]; [|exact Hev].
      rewrite Hm'. apply Htie.
      assert (E' : 2 * Z.abs X = A * d) by exact E.
      rewrite Z.mul_assoc, E', (FPeq He). ring.
    + intros Hm52 He. change (4 * X <= A * d).
      assert (HAd : 0 <= A * d) by (apply Z.mul_nonneg_nonneg; lia).
      destruct Hme as [[He' Hm']|(He' & _ & _)].
      * assert (HM52 : M = 2 ^ 52) by (rewrite <- Hm'; exact Hm52).
        assert (HXC : X * C <= 0)
          by (rewrite <- HX; apply Hbelow; [lia|exact HM52]).
        clear Hm52 HM52 Hbelow Hnorm.
        destruct (Z.le_gt_cases X 0) as [|Hpos]; [lia|].
        pose proof (Z.mul_pos_pos X C Hpos HC). lia.
      * clear Hm52 Hbelow Hnorm.
        apply (Z.mul_le_mono_pos_r _ _ C HC).
        assert (X * C <= Z.abs X * C)
          by (apply Z.mul_le_mono_nonneg_r; lia).
        replace (A * d * C) with (A * C * d) by ring.
        rewrite (FPcarry He'). lia.
Qed.

(** A nearest integer at equal distance from both neighbours is even. *)
Lemma div_half_even_tie_abs (a b : Z) :
  0 < b -> 2 * Z.abs (b * div_half_even a b - a) = b ->
  Z.even (div_half_even a b) = true.
Proof.
  intros Hb Ht. apply div_half_even_tie; [exact Hb|].
  unfold div_half_even in Ht.
  pose proof (Z.div_mod a b ltac:(lia)) as Hd.
  pose proof (Z.mod_pos_bound a b Hb) as Hm.
  destruct (Z.ltb_spec (2 * (a mod b)) b); [lia|].
  destruct (Z.ltb_spec b (2 * (a mod b))); lia.
Qed.

(** True division of a non-negative by a positive integer is correctly
    rounded. *)
Lemma py_truediv_nearest (a b : Z) (q : spec_float) :
  0 <= a -> 0 < b -> py_truediv a b = Ok q -> float_nearest a b q.
Proof.
  intros Ha Hb. unfold py_truediv.
  replace (b =? 0) with false by (symmetry; apply Z.eqb_neq; lia).
  replace (a <? 0) with false by (symmetry; apply Z.ltb_ge; lia).
  replace (b <? 0) with false by (symmetry; apply Z.ltb_ge; lia).
  cbn [xorb]. destruct (Z.eqb_spec a 0) as [->|Hne].
  - intros [= <-]. cbn [float_nearest]. lia.
  - rewrite !Z.abs_eq by lia.
    pose proof (nearest_float_nearest a b ltac:(lia) Hb) as Hq.
    destruct (nearest_float false a b) as [s|s| |s m e];
      intros [= <-]; exact Hq.
Qed.

(** [round(q, 2)] of a non-negative float is its value rounded to a whole
    number of hundredths, ties to even, and read back as the nearest
    float. *)
Lemma py_round_rounded (q r : spec_float) :
  match q with S754_finite s _ _ => s = false | _ => True end ->
  py_round q 2 = Ok r -> rounded_hundredths q r.
Proof.
  destruct q as [s|s| |s m e]; cbn [rounded_hundredths py_round];
    try (intros _ [= <-]; reflexivity).
  intros ->.
  replace (NDIGITS_MAX <? 2) with false by reflexivity.
  replace (2 <? NDIGITS_MIN) with false by reflexivity.
  cbv zeta. change (10 ^ Z.max 0 2) with 100.
  change (10 ^ Z.max 0 (- (2))) with 1. rewrite !Z.mul_1_r.
  set (num := Z.pos m * 2 ^ Z.max 0 e * 100).
  set (den := 2 ^ Z.max 0 (- e)).
  assert (Hden : 0 < den) by (apply Z.pow_pos_nonneg; lia).
  assert (Hnum : 0 <= num).
  { unfold num. apply Z.mul_nonneg_nonneg; [|lia].
    apply Z.mul_nonneg_nonneg; [lia|apply Z.pow_nonneg; lia]. }
  destruct (div_half_even_upper num den Hnum Hden) as [Hk0 _].
  set (k := div_half_even num den) in *.
  intros Hr. exists k.
  split; [apply div_half_even_nearest, Hden|].
  split; [apply div_half_even_tie_abs, Hden|].
  destruct (Z.eqb_spec k 0) as [E|E].
  - injection Hr as <-. rewrite E. cbn [float_nearest]. lia.
  - pose proof (nearest_float_nearest k 100 ltac:(lia) ltac:(lia)) as Hn.
    destruct (nearest_float false k 100) as [s|s| |s m' e'];
      try discriminate Hr; injection Hr as <-; exact Hn.
Qed.

(** ** The alphabet decoder *)

(** A fact about the 64 symbols (or the 256 bytes) is read off a table
    that was checked by computation. *)
Ltac from_table T v :=
  let H := fresh "T" in
  pose proof T as H;
  rewrite forallb_forall in H;
  specialize (H (Z.to_nat v));
  rewrite Z2Nat.id in H by lia.

Lemma decode_table_lookup (ch : char) :
  dict_get Z.eqb create_b64_decode_table ch = symbol_value ch.
Proof. reflexivity. Qed.

Lemma index_of_range (c : char) (l : str) (i v : Z) :
  index_of c l i = Some v -> i <= v < i + len l.
Proof.
  revert i. induction l as [|a r IH]; intros i; simpl; [discriminate|].
  replace (len (a :: r)) with (1 + len r)
    by (unfold len; simpl List.length; lia).
  destruct (c =? a).
  - intros [= <-]. pose proof (len_nonneg r). lia.
  - intros H. apply IH in H. lia.
Qed.

Lemma symbol_value_range (c : char) (v : Z) :
  symbol_value c = Some v -> 0 <= v < 64.
Proof. intros H. apply index_of_range in H. exact H. Qed.

Lemma format_06b_table :
  forallb (fun k => str_eqb (format_06b (Z.of_nat k))
                            (map bit_char (sextet_bits (Z.of_nat k))))
          (seq 0 64) = true.
Proof. vm_compute. reflexivity. Qed.

Lemma format_06b_sextet (v : Z) :
  0 <= v < 64 -> format_06b v = map bit_char (sextet_bits v).
Proof.
  intros Hv. from_table format_06b_table v.
  apply str_eqb_eq, T, in_seq. lia.
Qed.

Lemma symbol_bits_repeat_equals (k : nat) :
  flat_map symbol_bits (repeat (ord "=") k) = [].
Proof. induction k as [|k IH]; simpl; [reflexivity | exact IH]. Qed.

Lemma symbol_bits_rstrip (s : str) :
  flat_map symbol_bits (rstrip s (ord "=")) = flat_map symbol_bits s.
Proof.
  destruct (rstrip_decompose s (ord "=")) as [k Hk].
  rewrite Hk at 2. rewrite flat_map_app, symbol_bits_repeat_equals.
  now rewrite app_nil_r.
Qed.

(** One turn of the first loop: a known character adds the six bits of
    its position, and no character is looked up that the table lacks. *)
Lemma binary_str_step (binary_str : str) (ch : char) :
  (if dict_mem Z.eqb create_b64_decode_table ch
   then v <- dict_item create_b64_decode_table ch ;;
        Ok (binary_str ++ format_06b v)
   else Ok binary_str)
  = Ok (binary_str ++ map bit_char (symbol_bits ch)).
Proof.
  unfold dict_mem, dict_item, symbol_bits. rewrite decode_table_lookup.
  destruct (symbol_value ch) as [v|] eqn:E; cbn [bind map].
  - now rewrite (format_06b_sextet v) by (eapply symbol_value_range; eauto).
  - now rewrite app_nil_r.
Qed.

Lemma binary_str_bits (l : str) (acc : str) :
  for_each
    (fun binary_str ch =>
       if dict_mem Z.eqb create_b64_decode_table ch
       then v <- dict_item create_b64_decode_table ch ;;
            Ok (binary_str ++ format_06b v)
       else Ok binary_str) l acc
  = Ok (acc ++ map bit_char (flat_map symbol_bits l)).
Proof.
  revert acc. induction l as [|ch l IH]; intros acc; cbn [for_each flat_map].
  - simpl. now rewrite app_nil_r.
  - rewrite binary_str_step. cbn [bind].
    now rewrite IH, map_app, app_assoc.
Qed.

Lemma octets_short (bits : list bool) :
  (List.length bits < 8)%nat -> octets bits = [].
Proof.
  intros H. do 8 (destruct bits as [|? bits]; [reflexivity|]).
  simpl in H. lia.
Qed.

(** Eight binary digits are read back as the value of their bits, a byte. *)
Lemma octet_append (b7 b6 b5 b4 b3 b2 b1 b0 : bool) (acc : bytes) :
  (v <- int_base2 (map bit_char [b7; b6; b5; b4; b3; b2; b1; b0]) ;;
   bytearray_append acc v)
  = Ok (acc ++ [bits_value [b7; b6; b5; b4; b3; b2; b1; b0]]).
Proof.
  destruct b7, b6, b5, b4, b3, b2, b1, b0; reflexivity.
Qed.

(** The second loop, from chunk [a] on: [n] whole chunks are left. *)
Lemma chunk_loop (bits : list bool) (n a : nat) (acc : bytes) :
  (8 * a + 8 * n <= List.length bits < 8 * a + 8 * n + 8)%nat ->
  for_each (chunk_body (map bit_char bits))
           (map (fun k => 0 + Z.of_nat k * 8) (seq a n)) acc
  = Ok (acc ++ octets (skipn (8 * a) bits)).
Proof.
  revert a acc. induction n as [|n IH]; intros a acc Hlen.
  - simpl. rewrite octets_short, app_nil_r; [reflexivity|].
    rewrite length_skipn. lia.
  - cbn [seq map for_each].
    assert (Hsk : (8 <= List.length (skipn (8 * a) bits))%nat)
      by (rewrite length_skipn; lia).
    destruct (skipn (8 * a) bits)
      as [|b7 [|b6 [|b5 [|b4 [|b3 [|b2 [|b1 [|b0 rest]]]]]]]] eqn:E;
      simpl in Hsk; try lia.
    assert (Hchunk : slice (map bit_char bits) (0 + Z.of_nat a * 8)
                           (0 + Z.of_nat a * 8 + 8)
                     = map bit_char [b7; b6; b5; b4; b3; b2; b1; b0]).
    { unfold slice.
      replace (Z.to_nat (0 + Z.of_nat a * 8 + 8 - (0 + Z.of_nat a * 8)))
        with 8%nat by lia.
      replace (Z.to_nat (0 + Z.of_nat a * 8)) with (8 * a)%nat by lia.
      rewrite skipn_map, E. reflexivity. }
    unfold chunk_body at 1. cbv zeta. rewrite Hchunk.
    replace (len (map bit_char [b7; b6; b5; b4; b3; b2; b1; b0]) =? 8)
      with true by reflexivity.
    rewrite octet_append. cbn [bind].
    rewrite IH by lia.
    replace (8 * S a)%nat with (8 + 8 * a)%nat by lia.
    rewrite <- skipn_skipn, E. cbn [skipn octets].
    now rewrite <- app_assoc.
Qed.

Lemma octets_are_bytes (n : nat) (bits : list bool) :
  (List.length bits <= n)%nat -> is_bytes (octets bits).
Proof.
  revert bits. induction n as [|n IH]; intros bits Hn.
  - destruct bits; [constructor | simpl in Hn; lia].
  - destruct bits as [|b7 [|b6 [|b5 [|b4 [|b3 [|b2 [|b1 [|b0 rest]]]]]]]];
      try constructor.
    + destruct b7, b6, b5, b4, b3, b2, b1, b0; vm_compute; split; congruence.
    + apply IH. simpl in Hn. lia.
Qed.

(** The decoder never raises, and its bytes are those of the reference
    algorithm. *)
Lemma decode_custom_b64_spec (s : str) :
  decode_custom_b64 s = Ok (alphabet_decoder_spec s).
Proof.
  unfold decode_custom_b64, alphabet_decoder_spec. cbv zeta.
  rewrite binary_str_bits, symbol_bits_rstrip. cbn [app bind].
  set (bits := flat_map symbol_bits s).
  rewrite py_range_chunks by apply len_nonneg.
  change (for_each (chunk_body (map bit_char bits))
            (map (fun k => 0 + Z.of_nat k * 8)
                 (seq 0 (Z.to_nat (len (map bit_char bits) / 8)))) []
          = Ok ([] ++ octets (skipn (8 * 0) bits))).
  apply chunk_loop. unfold len. rewrite length_map.
  pose proof (Z.div_mod (Z.of_nat (List.length bits)) 8 ltac:(lia)) as Hd.
  pose proof (Z.mod_pos_bound (Z.of_nat (List.length bits)) 8 ltac:(lia)) as Hm.
  assert (0 <= Z.of_nat (List.length bits) / 8) by (apply Z.div_pos; lia).
  lia.
Qed.

Lemma decode_custom_b64_bytes (s : str) (b : bytes) :
  decode_custom_b64 s = Ok b -> is_bytes b.
Proof.
  rewrite decode_custom_b64_spec. intros [= <-].
  eapply octets_are_bytes, le_n.
Qed.

Example decode_custom_b64_abcd :
  decode_custom_b64 (lit "abcd") = Ok [0; 16; 131].
Proof. reflexivity. Qed.

(** Blanks, line ends and "=" signs are skipped wherever they stand. *)
Example decode_custom_b64_tolerant :
  decode_custom_b64 (lit "a b=c" ++ [10] ++ lit "d==") = Ok [0; 16; 131].
Proof. reflexivity. Qed.

(** Three symbols are 18 bits: two bytes, and two bits dropped. *)
Example decode_custom_b64_short_tail :
  decode_custom_b64 (lit ")))") = Ok [255; 255].
Proof. reflexivity. Qed.

(** ** The alphabet round trip *)

Lemma symbol_of_table :
  forallb (fun k => match symbol_value (symbol_of (Z.of_nat k)) with
                    | Some v => v =? Z.of_nat k
                    | None => false
                    end) (seq 0 64) = true.
Proof. vm_compute. reflexivity. Qed.

Lemma symbol_value_of (v : Z) :
  0 <= v < 64 -> symbol_value (symbol_of v) = Some v.
Proof.
  intros Hv. from_table symbol_of_table v.
  destruct (symbol_value (symbol_of v)) as [w|].
  - f_equal. apply Z.eqb_eq, T, in_seq. lia.
  - discriminate T. apply in_seq. lia.
Qed.

Lemma sextet_value_range (b5 b4 b3 b2 b1 b0 : bool) :
  0 <= bits_value [b5; b4; b3; b2; b1; b0] < 64.
Proof. destruct b5, b4, b3, b2, b1, b0; vm_compute; split; congruence. Qed.

Lemma sextet_bits_value (b5 b4 b3 b2 b1 b0 : bool) :
  sextet_bits (bits_value [b5; b4; b3; b2; b1; b0]) = [b5; b4; b3; b2; b1; b0].
Proof. destruct b5, b4, b3, b2, b1, b0; reflexivity. Qed.

Lemma symbol_bits_of_sextet (b5 b4 b3 b2 b1 b0 : bool) :
  symbol_bits (symbol_of (bits_value [b5; b4; b3; b2; b1; b0]))
  = [b5; b4; b3; b2; b1; b0].
Proof.
  unfold symbol_bits.
  rewrite symbol_value_of by apply sextet_value_range.
  apply sextet_bits_value.
Qed.

(** A last symbol of fewer than six bits is filled with [fill] zeros. *)
Ltac short_tail fill :=
  exists fill; split; [|lia];
  cbn [sextets map flat_map List.length Nat.sub repeat app];
  rewrite symbol_bits_of_sextet; reflexivity.

(** Decoding the symbols of a bit string gives the bits back, followed by
    the fill of the last symbol: fewer than six zero bits. *)
Lemma symbols_round_trip (n : nat) (bits : list bool) :
  (List.length bits <= n)%nat ->
  exists fill,
    flat_map symbol_bits (map symbol_of (sextets bits))
    = bits ++ repeat false fill /\ (fill < 6)%nat.
Proof.
  revert bits. induction n as [|n IH]; intros bits Hlen.
  - destruct bits; [|simpl in Hlen; lia].
    exists 0%nat. split; [reflexivity|lia].
  - destruct bits as [|b5 [|b4 [|b3 [|b2 [|b1 [|b0 rest]]]]]].
    + exists 0%nat. split; [reflexivity|lia].
    + short_tail 5%nat.
    + short_tail 4%nat.
    + short_tail 3%nat.
    + short_tail 2%nat.
    + short_tail 1%nat.
    + destruct (IH rest) as [fill [Hfill Hk]]; [simpl in Hlen; lia|].
      exists fill. split; [|exact Hk].
      cbn [sextets map flat_map]. rewrite symbol_bits_of_sextet, Hfill.
      reflexivity.
Qed.

Lemma octet_table :
  forallb (fun k => bits_value (octet_bits (Z.of_nat k)) =? Z.of_nat k)
          (seq 0 256) = true.
Proof. vm_compute. reflexivity. Qed.

Lemma octet_bits_value (b : Z) :
  0 <= b < 256 -> bits_value (octet_bits b) = b.
Proof.
  intros Hb. from_table octet_table b.
  apply Z.eqb_eq, T, in_seq. lia.
Qed.

(** Cutting the bits of whole bytes, then a fill too short for a byte,
    gives the bytes. *)
Lemma octets_of_bytes (data : bytes) (fill : list bool) :
  is_bytes data -> (List.length fill < 8)%nat ->
  octets (flat_map octet_bits data ++ fill) = data.
Proof.
  intros Hdata Hfill. induction Hdata as [|b data Hb _ IH].
  - apply octets_short. exact Hfill.
  - cbn [flat_map]. rewrite <- app_assoc.
    change (octet_bits b) with
      [Z.testbit b 7; Z.testbit b 6; Z.testbit b 5; Z.testbit b 4;
       Z.testbit b 3; Z.testbit b 2; Z.testbit b 1; Z.testbit b 0].
    cbn [app octets]. rewrite IH. f_equal.
    apply (octet_bits_value b Hb).
Qed.

Lemma alphabet_round_trip (data : bytes) :
  is_bytes data -> alphabet_decoder_spec (encode_custom_b64 data) = data.
Proof.
  intros Hdata. unfold alphabet_decoder_spec, encode_custom_b64.
  destruct (symbols_round_trip _ (flat_map octet_bits data) (le_n _))
    as [fill [-> Hfill]].
  apply octets_of_bytes; [exact Hdata|]. rewrite repeat_length. lia.
Qed.

(** ** The serialized-data summary *)

Lemma parse_summary (data : str) :
  parse_ace_serialized_data data = PDict (summary_entries (summary_text data)).
Proof.
  unfold parse_ace_serialized_data, summary_entries, summary_text, flag.
  cbv zeta.
  destruct (str_in (lit "week") _), (str_in (lit "objects") _),
    (str_in (lit "pulls") _); reflexivity.
Qed.

Lemma summary_has_no_error (text : str) :
  getitem (summary_entries text) "error" = None.
Proof.
  unfold summary_entries, flag.
  destruct (str_in (lit "week") _), (str_in (lit "objects") _),
    (str_in (lit "pulls") _); reflexivity.
Qed.

Example unicode_escape_sample :
  unicode_escape ([97; 92; 98; 1; 0; 127; 255; 256; 128512; 9; 10; 13; 32; 34])
  = lit "a\\b\x01\x00\x7f\xff\u0100\U0001f600\t\n\r " ++ [34].
Proof. reflexivity. Qed.

Example parse_header_and_flags :
  parse_ace_serialized_data ([1; 0] ++ lit "^Spulls^Sweek")
  = PDict [ (lit "format", PStr (lit "AceSerializer"));
            (lit "raw_data", PStr (lit "^Spulls^Sweek"));
            (lit "parsed_data", PStr PARTIAL_PARSING);
            (lit "contains_week_info", PBool true);
            (lit "contains_pulls", PBool true) ].
Proof. reflexivity. Qed.

(** C1, as stated, fails on the stream the specification gives for the
    number 3.14: the result is the three-entry summary of the text, which
    is neither the number nor a list holding it. *)
Lemma number_stream_is_summarised :
  parse_ace_serialized_data (lit "^N3.14^n")
  = PDict [ (lit "format", PStr (lit "AceSerializer"));
            (lit "raw_data", PStr (lit "^N3.14^n"));
            (lit "parsed_data", PStr PARTIAL_PARSING) ]
  /\ ~ returns_roots (parse_ace_serialized_data (lit "^N3.14^n"))
                     [Number float_3_14].
Proof.
  split; [reflexivity|].
  intros [[v [Hv Hde]] | [l [Hl _]]].
  - injection Hv as <-. inversion Hde.
  - discriminate Hl.
Qed.

(** C1, amended: for every text the deserializer returns a flat summary of
    the raw text and builds no tree: the entries [format], [raw_data] (the
    text without a leading two-byte header, escaped) and [parsed_data] (a
    fixed note), then one flag for each of the words week, objects and
    pulls that occurs in the text.  Every value is a string or [True]. *)
Theorem parse_returns_flat_summary (data : str) :
  exists entries,
    parse_ace_serialized_data data = PDict entries
    /\ entries
       = [ (lit "format", PStr (lit "AceSerializer"));
           (lit "raw_data", PStr (unicode_escape (summary_text data)));
           (lit "parsed_data", PStr PARTIAL_PARSING) ]
         ++ (if str_in (lit "week") (summary_text data)
             then [(lit "contains_week_info", PBool true)] else [])
         ++ (if str_in (lit "objects") (summary_text data)
             then [(lit "contains_objects", PBool true)] else [])
         ++ (if str_in (lit "pulls") (summary_text data)
             then [(lit "contains_pulls", PBool true)] else [])
    /\ Forall (fun kv => (exists s, snd kv = PStr s) \/ snd kv = PBool true)
              entries.
Proof.
  exists (summary_entries (summary_text data)).
  split; [apply parse_summary|]. split; [reflexivity|].
  unfold summary_entries, flag.
  destruct (str_in (lit "week") _), (str_in (lit "objects") _),
    (str_in (lit "pulls") _); cbn [app];
    repeat (apply Forall_cons; [cbn [snd]; eauto|]); apply Forall_nil.
Qed.

(** C2, as stated, fails on a number left unterminated at the end of the
    stream: the result is the same three-entry summary, with no error. *)
Lemma unterminated_number_is_summarised :
  parse_ace_serialized_data (lit "^N3.14")
  = PDict [ (lit "format", PStr (lit "AceSerializer"));
            (lit "raw_data", PStr (lit "^N3.14"));
            (lit "parsed_data", PStr PARTIAL_PARSING) ]
  /\ keys (parse_ace_serialized_data (lit "^N3.14"))
     = [lit "format"; lit "raw_data"; lit "parsed_data"].
Proof. split; reflexivity. Qed.

(** C2, amended: the deserializer checks no grammar.  For every text,
    malformed or not, it reports no error and no byte offset and builds no
    tree: the result is the same flat summary as for any other text,
    exactly the entries [format], [raw_data] (the escaped text) and
    [parsed_data] (the fixed note) followed by the flags of the words that
    occur.  It has no [error] entry; its keys are among six; each value
    is a string or [True], never an integer (an offset), a list or a
    mapping (a tree, partial or complete). *)
Theorem parse_never_reports_malformed (data : str) :
  exists d,
    parse_ace_serialized_data data = PDict d
    /\ d = [ (lit "format", PStr (lit "AceSerializer"));
             (lit "raw_data", PStr (unicode_escape (summary_text data)));
             (lit "parsed_data", PStr PARTIAL_PARSING) ]
           ++ (if str_in (lit "week") (summary_text data)
               then [(lit "contains_week_info", PBool true)] else [])
           ++ (if str_in (lit "objects") (summary_text data)
               then [(lit "contains_objects", PBool true)] else [])
           ++ (if str_in (lit "pulls") (summary_text data)
               then [(lit "contains_pulls", PBool true)] else [])
    /\ getitem d "error" = None
    /\ (forall k v, In (k, v) d ->
          In k [ lit "format"; lit "raw_data"; lit "parsed_data";
                 lit "contains_week_info"; lit "contains_objects";
                 lit "contains_pulls" ]
          /\ ((exists s, v = PStr s) \/ v = PBool true)
          /\ (forall n, v <> PInt n)
          /\ (forall l, v <> PList l)
          /\ (forall m, v <> PDict m)).
Proof.
  exists (summary_entries (summary_text data)).
  split; [apply parse_summary|]. split; [reflexivity|].
  split; [apply summary_has_no_error|].
  unfold summary_entries, flag. intros k v Hin.
  assert (H : In k [ lit "format"; lit "raw_data"; lit "parsed_data";
                     lit "contains_week_info"; lit "contains_objects";
                     lit "contains_pulls" ]
              /\ ((exists s, v = PStr s) \/ v = PBool true)).
  { destruct (str_in (lit "week") _), (str_in (lit "objects") _),
      (str_in (lit "pulls") _); cbn [app In] in Hin;
      repeat (destruct Hin as [[= <- <-]|Hin];
              [split; [cbn [In]; tauto | eauto]|]);
      contradiction. }
  destruct H as [Hk Hv]. split; [exact Hk|]. split; [exact Hv|].
  destruct Hv as [[s ->]| ->]; repeat split; discriminate.
Qed.

(** ** The alphabet stage: the claims *)

Lemma index_of_nth (c : char) (l : str) (i v : Z) :
  index_of c l i = Some v -> nth (Z.to_nat (v - i)) l 0 = c.
Proof.
  revert i. induction l as [|a r IH]; intros i; simpl; [discriminate|].
  destruct (Z.eqb_spec c a) as [->|Hne].
  - intros [= <-]. now rewrite Z.sub_diag.
  - intros H. pose proof (index_of_range _ _ _ _ H) as Hr.
    apply IH in H.
    replace (Z.to_nat (v - i)) with (S (Z.to_nat (v - (i + 1)))) by lia.
    exact H.
Qed.

Lemma index_of_absent (c : char) (l : str) (i : Z) :
  ~ In c l -> index_of c l i = None.
Proof.
  revert i. induction l as [|a r IH]; intros i Hin; simpl; [reflexivity|].
  destruct (Z.eqb_spec c a) as [->|Hne].
  - exfalso. apply Hin. now left.
  - apply IH. intros H. apply Hin. now right.
Qed.

Lemma octets_length (n : nat) (bits : list bool) :
  (List.length bits <= n)%nat -> len (octets bits) = len bits / 8.
Proof.
  revert bits. induction n as [|n IH]; intros bits Hn.
  - destruct bits; [reflexivity | simpl in Hn; lia].
  - destruct (Nat.lt_ge_cases (List.length bits) 8) as [Hs|Hs].
    + rewrite octets_short by exact Hs. unfold len. simpl List.length.
      symmetry. apply Z.div_small. lia.
    + destruct bits as [|b7 [|b6 [|b5 [|b4 [|b3 [|b2 [|b1 [|b0 rest]]]]]]]];
        simpl in Hs; try lia.
      cbn [octets]. unfold len in *. simpl List.length.
      rewrite !Nat2Z.inj_succ. rewrite IH by (simpl in Hn; lia).
      replace (Z.succ (Z.succ (Z.succ (Z.succ (Z.succ (Z.succ (Z.succ
                (Z.succ (Z.of_nat (List.length rest))))))))))
        with (Z.of_nat (List.length rest) + 1 * 8) by lia.
      rewrite Z.div_add by lia. lia.
Qed.

(** A character adds at most six bits, so the decoder returns at most as
    many bytes as it reads characters. *)
Lemma symbol_bits_length (c : char) : (List.length (symbol_bits c) <= 6)%nat.
Proof.
  unfold symbol_bits. destruct (symbol_value c); simpl; lia.
Qed.

Lemma alphabet_decoder_spec_length (s : str) :
  len (alphabet_decoder_spec s) <= len s.
Proof.
  unfold alphabet_decoder_spec.
  rewrite (octets_length _ _ (le_n _)).
  assert (H : len (flat_map symbol_bits s) <= 6 * len s).
  { unfold len. induction s as [|c s IH]; [simpl; lia|].
    cbn [flat_map]. rewrite length_app. simpl List.length.
    pose proof (symbol_bits_length c). lia. }
  pose proof (len_nonneg s).
  apply Z.div_le_upper_bound; lia.
Qed.

Lemma strip_marker_length (s : str) : len (strip_marker s) <= len s.
Proof.
  unfold strip_marker, slice_from, len.
  destruct (startswith s (lit "!")); [|lia].
  rewrite length_skipn. lia.
Qed.

(** C3: for every input string the alphabet decoder returns, without
    raising, the bytes of the reference algorithm: a character of the
    alphabet stands for the six bits of its position, a character outside
    it is skipped and adds no bit, and the concatenated bits are cut into
    bytes from the front, so that the length is the number of whole bytes
    and fewer than eight leftover bits are dropped. *)
Theorem alphabet_decoder_matches_reference (s : str) :
  decode_custom_b64 s = Ok (alphabet_decoder_spec s)
  /\ (forall c v, symbol_value c = Some v ->
        0 <= v < 64 /\ nth (Z.to_nat v) B64_ALPHABET 0 = c
        /\ symbol_bits c = sextet_bits v)
  /\ (forall c, ~ In c B64_ALPHABET -> symbol_bits c = [])
  /\ len (alphabet_decoder_spec s) = len (flat_map symbol_bits s) / 8.
Proof.
  split; [apply decode_custom_b64_spec|]. split; [|split].
  - intros c v Hv. split; [eapply symbol_value_range; eauto|]. split.
    + apply index_of_nth in Hv. now rewrite Z.sub_0_r in Hv.
    + unfold symbol_bits. now rewrite Hv.
  - intros c Hc. unfold symbol_bits, symbol_value.
    now rewrite index_of_absent.
  - unfold alphabet_decoder_spec. eapply octets_length. apply le_n.
Qed.

Lemma alphabet_decoder_spec_padding (s : str) (k : nat) :
  alphabet_decoder_spec (s ++ repeat (ord "=") k) = alphabet_decoder_spec s.
Proof.
  unfold alphabet_decoder_spec.
  now rewrite flat_map_app, symbol_bits_repeat_equals, app_nil_r.
Qed.

(** C4: for every byte sequence, encoding it with the fixed alphabet
    (eight-bit bytes packed into six-bit symbols, the last symbol filled
    with zero bits) and decoding the result returns the byte sequence,
    also when the symbols are followed by any number of "=" signs.
    The fill is shorter than a byte, so the allowance of one trailing
    partial byte is not used: nothing of the original is lost. *)
Theorem encode_then_decode (data : bytes) :
  is_bytes data ->
  decode_custom_b64 (encode_custom_b64 data) = Ok data
  /\ forall k, decode_custom_b64 (encode_custom_b64 data ++ repeat (ord "=") k)
               = Ok data.
Proof.
  intros Hdata. split; [|intros k];
    rewrite decode_custom_b64_spec; f_equal;
    rewrite ?alphabet_decoder_spec_padding;
    apply alphabet_round_trip; exact Hdata.
Qed.

(** The round trip on the zlib stream of the four bytes of "week". *)
Lemma encode_then_decode_witness :
  is_bytes [120; 1; 1; 4; 0; 251; 255; 119; 101; 101; 107; 4; 68; 1; 173]
  /\ encode_custom_b64
       [120; 1; 1; 4; 0; 251; 255; 119; 101; 101; 107; 4; 68; 1; 173]
     = lit "Eaebbad7)3DLzwSeragT"
  /\ decode_custom_b64
       (encode_custom_b64
          [120; 1; 1; 4; 0; 251; 255; 119; 101; 101; 107; 4; 68; 1; 173])
     = Ok [120; 1; 1; 4; 0; 251; 255; 119; 101; 101; 107; 4; 68; 1; 173].
Proof.
  assert (H : is_bytes
                [120; 1; 1; 4; 0; 251; 255; 119; 101; 101; 107; 4; 68; 1; 173])
    by (repeat constructor; lia).
  split; [exact H|]. split; [reflexivity|].
  exact (proj1 (encode_then_decode _ H)).
Defined.

(** ** The pipeline *)

Section DecoderProperties.

Variable zlib_decompress : bytes -> exc bytes.

(** The steps after the alphabet stage, which never raises. *)
Lemma decode_steps_unfold (route_string : str) :
  decode_steps zlib_decompress route_string
  = (let compressed_data := alphabet_decoder_spec (strip_marker route_string) in
     decompressed_data <- decompress_data zlib_decompress compressed_data ;;
     quotient <- py_truediv (len compressed_data) (len decompressed_data) ;;
     ratio <- py_round quotient 2 ;;
     Ok (success_result (len route_string) (len compressed_data)
           (len decompressed_data) ratio
           (parse_ace_serialized_data (latin1_decode decompressed_data)))).
Proof.
  unfold decode_steps. cbv zeta. rewrite decode_custom_b64_spec. reflexivity.
Qed.

Lemma decode_of_raise (route_string : str) (e : exn) :
  decode_steps zlib_decompress route_string = Raise e ->
  decode_mdt_route_string zlib_decompress route_string
  = failure_result e route_string.
Proof. unfold decode_mdt_route_string. now intros ->. Qed.

Lemma decode_of_ok (route_string : str) (r : pyval) :
  decode_steps zlib_decompress route_string = Ok r ->
  decode_mdt_route_string zlib_decompress route_string = r.
Proof. unfold decode_mdt_route_string. now intros ->. Qed.

(** Every result of the steps is the success mapping of some lengths,
    ratio and summary. *)
Lemma steps_ok_inv (route_string : str) (r : pyval) :
  decode_steps zlib_decompress route_string = Ok r ->
  exists compressed decompressed quotient ratio,
    decode_custom_b64 (strip_marker route_string) = Ok compressed
    /\ zlib_decompress compressed = Ok decompressed
    /\ py_truediv (len compressed) (len decompressed) = Ok quotient
    /\ py_round quotient 2 = Ok ratio
    /\ r = success_result (len route_string) (len compressed)
             (len decompressed) ratio
             (parse_ace_serialized_data (latin1_decode decompressed)).
Proof.
  rewrite decode_steps_unfold. cbv zeta.
  set (c := alphabet_decoder_spec (strip_marker route_string)).
  unfold decompress_data.
  destruct (zlib_decompress c) as [d|e] eqn:Hz; cbn [bind].
  - destruct (py_truediv (len c) (len d)) as [q|e] eqn:Hq; cbn [bind];
      [|discriminate].
    destruct (py_round q 2) as [ratio|e] eqn:Hr; cbn [bind]; [|discriminate].
    intros [= <-]. exists c, d, q, ratio.
    repeat split; auto using decode_custom_b64_spec.
  - destruct (exn_kind e); discriminate.
Qed.

(** C5: when the alphabet-decoded bytes are not a valid stream, that is
    when the codec raises its error on them, the decompression stage
    raises a [ValueError] whose message carries the codec's text, no later
    stage runs, and the decode is the failure mapping: an [error] that
    carries the same text and the [original_string], with no [metadata]
    and no [route_data]. *)
Theorem invalid_stream_is_reported (route_string : str) (compressed : bytes)
    (e : exn) :
  decode_custom_b64 (strip_marker route_string) = Ok compressed ->
  zlib_decompress compressed = Raise e ->
  exn_kind e = ZlibError ->
  decompress_data zlib_decompress compressed
  = Raise (mk_exn ValueError (lit "Decompression failed: " ++ exn_msg e))
  /\ decode_steps zlib_decompress route_string
     = Raise (mk_exn ValueError (lit "Decompression failed: " ++ exn_msg e))
  /\ decode_mdt_route_string zlib_decompress route_string
     = PDict
         [ (lit "error",
            PStr (lit "Failed to decode route string: "
                  ++ lit "Decompression failed: " ++ exn_msg e));
           (lit "original_string", PStr (excerpt route_string)) ]
  /\ keys (decode_mdt_route_string zlib_decompress route_string)
     = [lit "error"; lit "original_string"].
Proof.
  intros Hb Hz He.
  assert (Hd : decompress_data zlib_decompress compressed
               = Raise (mk_exn ValueError
                          (lit "Decompression failed: " ++ exn_msg e)))
    by (unfold decompress_data; now rewrite Hz, He).
  assert (Hs : decode_steps zlib_decompress route_string
               = Raise (mk_exn ValueError
                          (lit "Decompression failed: " ++ exn_msg e)))
    by (unfold decode_steps; cbv zeta; rewrite Hb; cbn [bind];
        now rewrite Hd).
  split; [exact Hd|]. split; [exact Hs|].
  rewrite (decode_of_raise _ _ Hs). split; reflexivity.
Qed.

(** C6: the metadata of every successful decode holds the length of the
    route string, the length of the alphabet-decoded (compressed) bytes,
    the length of the decompressed bytes, and as ratio the quotient of the
    last two lengths rounded to two decimals.  The quotient is the float
    nearest to the exact quotient of the lengths, ties to even; the ratio
    is the float nearest to [k / 100], where [k] is the integer nearest
    to a hundred times the exact value of that float, the even one on a
    tie. *)
Theorem metadata_of_success (route_string : str) (result : list (str * pyval))
    (metadata : pyval) :
  decode_mdt_route_string zlib_decompress route_string = PDict result ->
  getitem result "metadata" = Some metadata ->
  exists compressed decompressed quotient ratio,
    decode_custom_b64 (strip_marker route_string) = Ok compressed
    /\ zlib_decompress compressed = Ok decompressed
    /\ py_truediv (len compressed) (len decompressed) = Ok quotient
    /\ py_round quotient 2 = Ok ratio
    /\ metadata
       = PDict
           [ (lit "original_length", PInt (len route_string));
             (lit "compressed_length", PInt (len compressed));
             (lit "decompressed_length", PInt (len decompressed));
             (lit "compression_ratio", PFloat ratio) ]
    /\ 0 < len decompressed
    /\ float_nearest (len compressed) (len decompressed) quotient
    /\ rounded_hundredths quotient ratio.
Proof.
  intros Hdec Hmeta.
  destruct (decode_steps zlib_decompress route_string) as [r|e] eqn:Hs.
  - rewrite (decode_of_ok _ _ Hs) in Hdec. subst r.
    destruct (steps_ok_inv _ _ Hs)
      as (c & d & q & ratio & Hb & Hz & Hq & Hr & Hres).
    exists c, d, q, ratio.
    assert (Hd : 0 < len d).
    { destruct d; [discriminate Hq|]. unfold len. simpl List.length. lia. }
    pose proof (py_truediv_nearest _ _ _ (len_nonneg c) Hd Hq) as Hn.
    assert (Hrd : rounded_hundredths q ratio).
    { apply py_round_rounded; [|exact Hr].
      destruct q as [s|s| |s m e]; try exact I.
      cbn [float_nearest] in Hn. tauto. }
    repeat split; auto.
    unfold success_result in Hres. injection Hres as ->.
    cbv in Hmeta. now injection Hmeta as <-.
  - rewrite (decode_of_raise _ _ Hs) in Hdec.
    unfold failure_result in Hdec. injection Hdec as <-.
    discriminate Hmeta.
Qed.

Lemma excerpt_short (route_string : str) :
  len route_string <= 100 -> excerpt route_string = route_string.
Proof.
  intros H. unfold excerpt.
  destruct (Z.ltb_spec 100 (len route_string)); [lia | reflexivity].
Qed.

Lemma excerpt_long (route_string : str) :
  100 < len route_string ->
  excerpt route_string = firstn 100 route_string ++ lit "..."
  /\ len (excerpt route_string) = 103.
Proof.
  intros H. unfold excerpt.
  destruct (Z.ltb_spec 100 (len route_string)); [|lia].
  split; [reflexivity|].
  rewrite len_app. unfold slice_to, len in *.
  rewrite length_firstn. simpl List.length. lia.
Qed.

(** C7, amended: when a stage raises, the failure result carries the text
    "Failed to decode route string: " followed by the stage's message,
    and as [original_string] the whole input when it has at most 100
    characters, otherwise its first 100 characters followed by three dots,
    103 characters in all; an input of more than 103 characters is never
    reproduced in full. *)
Theorem failure_carries_message_and_excerpt (route_string : str) (e : exn) :
  decode_steps zlib_decompress route_string = Raise e ->
  decode_mdt_route_string zlib_decompress route_string
  = PDict
      [ (lit "error",
         PStr (lit "Failed to decode route string: " ++ exn_msg e));
        (lit "original_string", PStr (excerpt route_string)) ]
  /\ (len route_string <= 100 -> excerpt route_string = route_string)
  /\ (100 < len route_string ->
      excerpt route_string = firstn 100 route_string ++ lit "..."
      /\ len (excerpt route_string) = 103)
  /\ (103 < len route_string -> excerpt route_string <> route_string).
Proof.
  intros Hs. split; [apply decode_of_raise, Hs|].
  split; [apply excerpt_short|]. split; [apply excerpt_long|].
  intros Hlong Heq.
  destruct (excerpt_long route_string) as [_ Hlen]; [lia|].
  rewrite Heq in Hlen. lia.
Qed.

(** The marker is not a symbol of the alphabet: with or without it the
    payload decodes to the same bytes. *)
Lemma strip_marker_cons (s : str) : strip_marker (ord "!" :: s) = s.
Proof. reflexivity. Qed.

Lemma payload_bytes_strip (s : str) :
  alphabet_decoder_spec (strip_marker s) = alphabet_decoder_spec s.
Proof.
  unfold strip_marker. destruct s as [|a s]; [reflexivity|].
  cbn [startswith lit]. destruct (Z.eqb_spec a (ord "!")) as [->|_];
    reflexivity.
Qed.

Lemma steps_with_marker (s : str) :
  decode_steps zlib_decompress (ord "!" :: s)
  = match decode_steps zlib_decompress s with
    | Ok _ =>
        let c := alphabet_decoder_spec s in
        d <- decompress_data zlib_decompress c ;;
        q <- py_truediv (len c) (len d) ;;
        ratio <- py_round q 2 ;;
        Ok (success_result (len s + 1) (len c) (len d) ratio
              (parse_ace_serialized_data (latin1_decode d)))
    | Raise e => Raise e
    end.
Proof.
  rewrite !decode_steps_unfold. cbv zeta.
  rewrite strip_marker_cons, payload_bytes_strip.
  replace (len (ord "!" :: s)) with (len s + 1)
    by (unfold len; simpl List.length; lia).
  destruct (decompress_data zlib_decompress (alphabet_decoder_spec s))
    as [d|e]; cbn [bind]; [|reflexivity].
  destruct (py_truediv _ _) as [q|e]; cbn [bind]; [|reflexivity].
  destruct (py_round q 2) as [ratio|e]; cbn [bind]; reflexivity.
Qed.

(** C8, amended: decoding a route string that begins with the marker and
    decoding it with the marker removed end the same way, with the same
    error text or the same compressed length, decompressed length, ratio
    and route data; the results differ only where they echo the input:
    [original_length] is one more with the marker, and [original_string]
    is the excerpt of the input as given. *)
Theorem marker_changes_only_the_echo (s : str) :
  (exists compressed_length decompressed_length ratio route_data,
     decode_mdt_route_string zlib_decompress s
     = success_result (len s) compressed_length decompressed_length
         ratio route_data
     /\ decode_mdt_route_string zlib_decompress (ord "!" :: s)
        = success_result (len s + 1) compressed_length decompressed_length
            ratio route_data)
  \/ (exists e,
        decode_mdt_route_string zlib_decompress s = failure_result e s
        /\ decode_mdt_route_string zlib_decompress (ord "!" :: s)
           = failure_result e (ord "!" :: s)).
Proof.
  pose proof (steps_with_marker s) as Hm.
  destruct (decode_steps zlib_decompress s) as [r|e] eqn:Hs.
  - left.
    destruct (steps_ok_inv _ _ Hs)
      as (c & d & q & ratio & Hb & Hz & Hq & Hr & ->).
    rewrite decode_custom_b64_spec, payload_bytes_strip in Hb.
    injection Hb as <-.
    exists (len (alphabet_decoder_spec s)), (len d), ratio,
      (parse_ace_serialized_data (latin1_decode d)).
    split; [apply decode_of_ok, Hs|]. apply decode_of_ok.
    rewrite Hm. cbv zeta. unfold decompress_data. rewrite Hz. cbn [bind].
    rewrite Hq. cbn [bind]. rewrite Hr. reflexivity.
  - right. exists e. split; apply decode_of_raise; assumption.
Qed.

(** C9: for every input the decoder returns a mapping, whatever a stage
    raises, and the mapping has one of two shapes: the keys [metadata] and
    [route_data], or the keys [error] and [original_string]. *)
Theorem decode_has_one_of_two_shapes (route_string : str) :
  exists d,
    decode_mdt_route_string zlib_decompress route_string = PDict d
    /\ (dict_keys d = [lit "metadata"; lit "route_data"]
        \/ dict_keys d = [lit "error"; lit "original_string"])
    /\ (dict_keys d = [lit "metadata"; lit "route_data"] ->
        dict_keys d <> [lit "error"; lit "original_string"]).
Proof.
  destruct (decode_steps zlib_decompress route_string) as [r|e] eqn:Hs.
  - destruct (steps_ok_inv _ _ Hs) as (c & d & q & ratio & _ & _ & _ & _ & ->).
    rewrite (decode_of_ok _ _ Hs). unfold success_result.
    eexists. split; [reflexivity|]. split; [now left|].
    intros _. discriminate.
  - rewrite (decode_of_raise _ _ Hs). unfold failure_result.
    eexists. split; [reflexivity|]. split; [now right|].
    discriminate.
Qed.

(** C10: when the alphabet-decoded bytes inflate to no byte at all, the
    division by the decompressed length raises, and the decode is the
    failure mapping with the message of the division by zero: no success
    result has a decompressed length of zero. *)
Theorem empty_stream_fails (route_string : str) (compressed : bytes) :
  decode_custom_b64 (strip_marker route_string) = Ok compressed ->
  zlib_decompress compressed = Ok [] ->
  decode_mdt_route_string zlib_decompress route_string
  = PDict
      [ (lit "error",
         PStr (lit "Failed to decode route string: division by zero"));
        (lit "original_string", PStr (excerpt route_string)) ]
  /\ keys (decode_mdt_route_string zlib_decompress route_string)
     = [lit "error"; lit "original_string"].
Proof.
  intros Hb Hz.
  assert (Hs : decode_steps zlib_decompress route_string
               = Raise (mk_exn ZeroDivisionError (lit "division by zero"))).
  { unfold decode_steps. cbv zeta. rewrite Hb. cbn [bind].
    unfold decompress_data. rewrite Hz. reflexivity. }
  rewrite (decode_of_raise _ _ Hs). split; reflexivity.
Qed.

(** The converse of C5 and C10: on a route string of a length a Python
    string can have, when the codec inflates the payload to at least one
    byte, neither the division nor the rounding raises, and the decode is
    the success mapping. *)
Theorem nonempty_stream_succeeds (route_string : str)
    (compressed decompressed : bytes) :
  len route_string < 2 ^ 63 ->
  decode_custom_b64 (strip_marker route_string) = Ok compressed ->
  zlib_decompress compressed = Ok decompressed ->
  decompressed <> [] ->
  exists ratio,
    decode_mdt_route_string zlib_decompress route_string
    = success_result (len route_string) (len compressed) (len decompressed)
        ratio (parse_ace_serialized_data (latin1_decode decompressed)).
Proof.
  intros Hlen Hb Hz Hne.
  assert (Hc : 0 <= len compressed < 2 ^ 63).
  { split; [apply len_nonneg|].
    rewrite decode_custom_b64_spec in Hb. injection Hb as <-.
    pose proof (alphabet_decoder_spec_length (strip_marker route_string)).
    pose proof (strip_marker_length route_string). lia. }
  assert (Hd : 0 < len decompressed).
  { destruct decompressed; [contradiction|].
    unfold len. simpl List.length. lia. }
  assert (HL : Z.log2 (len compressed) - Z.log2 (len decompressed) + 1 <= 64).
  { pose proof (Z.log2_nonneg (len decompressed)).
    destruct (Z.eq_dec (len compressed) 0) as [->|Hnz]; [simpl; lia|].
    assert (Z.log2 (len compressed) < 63) by (apply Z.log2_lt_pow2; lia).
    lia. }
  destruct (py_truediv_below (len compressed) (len decompressed))
    as (q & Hq & Hbelow); [lia|lia|lia|].
  destruct (py_round_below q _ Hbelow) as [ratio Hr]; [lia|].
  exists ratio. apply decode_of_ok.
  unfold decode_steps. cbv zeta. rewrite Hb. cbn [bind].
  unfold decompress_data. rewrite Hz. cbn [bind].
  rewrite Hq. cbn [bind]. rewrite Hr. reflexivity.
Qed.

End DecoderProperties.

(** ** The pipeline on the sample inputs *)

Example reference_codec_inflates_week :
  StoredZlib.decompress
    [120; 1; 1; 4; 0; 251; 255; 119; 101; 101; 107; 4; 68; 1; 173]
  = Ok [119; 101; 101; 107].
Proof. reflexivity. Qed.

Example decode_week_route :
  decode_mdt_route_string StoredZlib.decompress week_route
  = PDict
      [ (lit "metadata",
         PDict
           [ (lit "original_length", PInt 21);
             (lit "compressed_length", PInt 15);
             (lit "decompressed_length", PInt 4);
             (lit "compression_ratio",
              PFloat (S754_finite false 8444249301319680 (-51))) ]);
        (lit "route_data",
         PDict
           [ (lit "format", PStr (lit "AceSerializer"));
             (lit "raw_data", PStr (lit "week"));
             (lit "parsed_data", PStr PARTIAL_PARSING);
             (lit "contains_week_info", PBool true) ]) ].
Proof. vm_compute. reflexivity. Qed.

(** Ties of the ratio are those of the float quotient: 107/40 is the float
    just below 2.675 and rounds to 2.67, 1/8 is exact and rounds to 0.12. *)
Example ratio_107_40 :
  (q <- py_truediv 107 40 ;; py_round q 2) = py_truediv 267 100.
Proof. vm_compute. reflexivity. Qed.

Example ratio_1_8 :
  (q <- py_truediv 1 8 ;; py_round q 2) = py_truediv 12 100.
Proof. vm_compute. reflexivity. Qed.

(** The route string "!" has an empty payload, which no codec inflates:
    the stream is cut short. *)
Lemma invalid_stream_witness :
  decode_custom_b64 (strip_marker (lit "!")) = Ok []
  /\ StoredZlib.decompress [] = Raise StoredZlib.truncated
  /\ decode_mdt_route_string StoredZlib.decompress (lit "!")
     = PDict
         [ (lit "error",
            PStr (lit "Failed to decode route string: "
                  ++ lit "Decompression failed: "
                  ++ exn_msg StoredZlib.truncated));
           (lit "original_string", PStr (excerpt (lit "!"))) ].
Proof.
  split; [reflexivity|]. split; [reflexivity|].
  apply (invalid_stream_is_reported StoredZlib.decompress (lit "!") []
           StoredZlib.truncated);
    reflexivity.
Defined.

(** The route of "week one": the quotient 19/8 is the float 2.375, a
    tie between 2.37 and 2.38, and the ratio is the float nearest to
    238/100. *)
Example decode_tie_route :
  decode_mdt_route_string StoredZlib.decompress tie_route
  = PDict
      [ (lit "metadata",
         PDict
           [ (lit "original_length", PInt 27);
             (lit "compressed_length", PInt 19);
             (lit "decompressed_length", PInt 8);
             (lit "compression_ratio",
              PFloat (S754_finite false 5359283556570890 (-51))) ]);
        (lit "route_data",
         PDict
           [ (lit "format", PStr (lit "AceSerializer"));
             (lit "raw_data", PStr (lit "week one"));
             (lit "parsed_data", PStr PARTIAL_PARSING);
             (lit "contains_week_info", PBool true) ]) ].
Proof. vm_compute. reflexivity. Qed.

Example ratio_19_8 :
  py_truediv 19 8 = Ok (S754_finite false 5348024557502464 (-51))
  /\ py_round (S754_finite false 5348024557502464 (-51)) 2
     = Ok (S754_finite false 5359283556570890 (-51))
  /\ nearest_float false 238 100 = S754_finite false 5359283556570890 (-51)
  /\ div_half_even (5348024557502464 * 100) (2 ^ 51) = 238.
Proof. vm_compute. repeat split; reflexivity. Qed.

(** The float nearest to 238/100 is one float: its two neighbours are
    farther from it than half a unit of the last place. *)
Example float_nearest_238_100 :
  float_nearest 238 100 (S754_finite false 5359283556570890 (-51))
  /\ ~ float_nearest 238 100 (S754_finite false 5359283556570891 (-51))
  /\ ~ float_nearest 238 100 (S754_finite false 5359283556570889 (-51)).
Proof.
  unfold float_nearest.
  change (2 ^ Z.max 0 (-51)) with 1.
  change (2 ^ Z.max 0 (- -51)) with (2 ^ 51).
  split; [|split].
  - split; [reflexivity|]. split; [reflexivity|].
    split; [vm_compute; discriminate|].
    split; intros H; vm_compute in H; discriminate H.
  - intros (_ & _ & H & _). vm_compute in H. now apply H.
  - intros (_ & _ & H & _). vm_compute in H. now apply H.
Qed.

(** The metadata of the route of "week one": 27 characters, 19 compressed
    bytes, 8 decompressed bytes, ratio 2.38. *)
Lemma metadata_of_success_witness :
  exists compressed decompressed quotient ratio,
    decode_custom_b64 (strip_marker tie_route) = Ok compressed
    /\ StoredZlib.decompress compressed = Ok decompressed
    /\ py_truediv (len compressed) (len decompressed) = Ok quotient
    /\ py_round quotient 2 = Ok ratio
    /\ PDict
         [ (lit "original_length", PInt 27);
           (lit "compressed_length", PInt 19);
           (lit "decompressed_length", PInt 8);
           (lit "compression_ratio",
            PFloat (S754_finite false 5359283556570890 (-51))) ]
       = PDict
           [ (lit "original_length", PInt (len tie_route));
             (lit "compressed_length", PInt (len compressed));
             (lit "decompressed_length", PInt (len decompressed));
             (lit "compression_ratio", PFloat ratio) ]
    /\ 0 < len decompressed
    /\ float_nearest (len compressed) (len decompressed) quotient
    /\ rounded_hundredths quotient ratio.
Proof.
  eapply (metadata_of_success StoredZlib.decompress tie_route).
  - exact decode_tie_route.
  - reflexivity.
Defined.

(** The failure result of the route string "!", which is its own
    excerpt. *)
Lemma failure_witness :
  decode_steps StoredZlib.decompress (lit "!")
  = Raise (mk_exn ValueError
             (lit "Decompression failed: " ++ exn_msg StoredZlib.truncated))
  /\ decode_mdt_route_string StoredZlib.decompress (lit "!")
     = PDict
         [ (lit "error",
            PStr (lit "Failed to decode route string: "
                  ++ lit "Decompression failed: "
                  ++ exn_msg StoredZlib.truncated));
           (lit "original_string", PStr (lit "!")) ].
Proof.
  assert (H : decode_steps StoredZlib.decompress (lit "!")
              = Raise (mk_exn ValueError
                         (lit "Decompression failed: "
                          ++ exn_msg StoredZlib.truncated)))
    by reflexivity.
  split; [exact H|].
  exact (proj1 (failure_carries_message_and_excerpt StoredZlib.decompress
                  (lit "!") _ H)).
Defined.

(** The sample route whose payload is the zlib stream of no data. *)
Lemma empty_stream_witness :
  decode_custom_b64 (strip_marker empty_route)
  = Ok [120; 1; 1; 0; 0; 255; 255; 0; 0; 0; 1]
  /\ StoredZlib.decompress [120; 1; 1; 0; 0; 255; 255; 0; 0; 0; 1] = Ok []
  /\ decode_mdt_route_string StoredZlib.decompress empty_route
     = PDict
         [ (lit "error",
            PStr (lit "Failed to decode route string: division by zero"));
           (lit "original_string", PStr (excerpt empty_route)) ].
Proof.
  split; [reflexivity|]. split; [reflexivity|].
  apply (empty_stream_fails StoredZlib.decompress empty_route
           [120; 1; 1; 0; 0; 255; 255; 0; 0; 0; 1]);
    reflexivity.
Defined.

(** C7, as stated, fails on an input of 103 characters, a hundred "a" and
    three dots: the codec rejects its payload (75 zero bytes) and the
    failure result holds the input in full, under any codec that fails. *)
Lemma dotted_route_is_echoed_in_full :
  100 < len dotted_route
  /\ decode_mdt_route_string StoredZlib.decompress dotted_route
     = PDict
         [ (lit "error",
            PStr (lit "Failed to decode route string: "
                  ++ lit "Decompression failed: "
                  ++ lit "Error -3 while decompressing data: "
                  ++ lit "unknown compression method"));
           (lit "original_string", PStr dotted_route) ]
  /\ (forall zlib_decompress e,
        decode_steps zlib_decompress dotted_route = Raise e ->
        getitem (match decode_mdt_route_string zlib_decompress dotted_route
                 with PDict d => d | _ => [] end) "original_string"
        = Some (PStr dotted_route)).
Proof.
  split; [reflexivity|]. split; [vm_compute; reflexivity|].
  intros zlib_decompress e Hs.
  rewrite (decode_of_raise _ _ _ Hs). reflexivity.
Qed.

(** C8, as stated, fails on the sample route: with the marker the result
    says 21 characters and without it 20, and when the codec fails the two
    results echo different inputs.  The two decodes differ under every
    codec. *)
Lemma marker_changes_the_result :
  getitem (match decode_mdt_route_string StoredZlib.decompress week_route
           with PDict d => d | _ => [] end) "metadata"
  = Some (PDict
            [ (lit "original_length", PInt 21);
              (lit "compressed_length", PInt 15);
              (lit "decompressed_length", PInt 4);
              (lit "compression_ratio",
               PFloat (S754_finite false 8444249301319680 (-51))) ])
  /\ getitem (match decode_mdt_route_string StoredZlib.decompress
                      (slice_from week_route 1)
              with PDict d => d | _ => [] end) "metadata"
     = Some (PDict
               [ (lit "original_length", PInt 20);
                 (lit "compressed_length", PInt 15);
                 (lit "decompressed_length", PInt 4);
                 (lit "compression_ratio",
                  PFloat (S754_finite false 8444249301319680 (-51))) ])
  /\ (forall zlib_decompress,
        decode_mdt_route_string zlib_decompress week_route
        <> decode_mdt_route_string zlib_decompress (slice_from week_route 1)).
Proof.
  split; [vm_compute; reflexivity|]. split; [vm_compute; reflexivity|].
  intros zlib_decompress Heq.
  set (s := slice_from week_route 1) in Heq.
  change week_route with (ord "!" :: s) in Heq.
  unfold decode_mdt_route_string in Heq.
  rewrite steps_with_marker in Heq.
  destruct (decode_steps zlib_decompress s) as [r|e] eqn:Hs.
  - destruct (steps_ok_inv _ _ _ Hs)
      as (c & d & q & ratio & Hb & Hz & Hq & Hr & ->).
    rewrite decode_custom_b64_spec, payload_bytes_strip in Hb.
    injection Hb as <-. cbv zeta in Heq.
    unfold decompress_data in Heq. rewrite Hz in Heq. cbn [bind] in Heq.
    rewrite Hq in Heq. cbn [bind] in Heq. rewrite Hr in Heq.
    cbn [bind] in Heq. unfold success_result in Heq.
    injection Heq as Heq. vm_compute in Heq. discriminate Heq.
  - unfold failure_result in Heq. injection Heq as Heq.
    vm_compute in Heq. discriminate Heq.
Qed.

(** * Further properties *)

(** ** The decode table and the alphabet decoder *)

Lemma symbol_value_iff (ch : char) (i : Z) :
  symbol_value ch = Some i
  <-> 0 <= i < 64 /\ nth (Z.to_nat i) B64_ALPHABET 0 = ch.
Proof.
  split.
  - intros H. split; [eapply symbol_value_range; eauto|].
    apply index_of_nth in H. now rewrite Z.sub_0_r in H.
  - intros [Hi <-]. apply (symbol_value_of i Hi).
Qed.

Lemma is_symbol_In (ch : char) : is_symbol ch = true <-> In ch B64_ALPHABET.
Proof.
  unfold is_symbol. split.
  - destruct (symbol_value ch) as [i|] eqn:E; [|discriminate]. intros _.
    apply symbol_value_iff in E as [Hi <-]. apply nth_In.
    change (List.length B64_ALPHABET) with 64%nat. lia.
  - intros Hin. destruct (symbol_value ch) eqn:E; [reflexivity|exfalso].
    destruct (In_nth _ _ 0 Hin) as (n & Hn & Hnth).
    change (List.length B64_ALPHABET) with 64%nat in Hn.
    assert (H : symbol_value ch = Some (Z.of_nat n)).
    { apply symbol_value_iff. rewrite Nat2Z.id. split; [lia|exact Hnth]. }
    congruence.
Qed.

(** X1: the table of [create_b64_decode_table] inverts the alphabet.  It
    has one entry for each of the 64 symbols; looking a character up gives
    [i] exactly when the character is the symbol at position [i], and a
    character is a key exactly when it is in the alphabet. *)
Theorem decode_table_inverts_alphabet :
  List.length create_b64_decode_table = 64%nat
  /\ (forall ch i,
        dict_get Z.eqb create_b64_decode_table ch = Some i
        <-> 0 <= i < 64 /\ nth (Z.to_nat i) B64_ALPHABET 0 = ch)
  /\ (forall ch,
        dict_mem Z.eqb create_b64_decode_table ch = true
        <-> In ch B64_ALPHABET).
Proof.
  split; [reflexivity|]. split.
  - intros ch i. rewrite decode_table_lookup. apply symbol_value_iff.
  - intros ch. unfold dict_mem. rewrite decode_table_lookup.
    apply is_symbol_In.
Qed.

Lemma symbol_bits_filter (s : str) :
  flat_map symbol_bits (filter is_symbol s) = flat_map symbol_bits s.
Proof.
  induction s as [|c s IH]; [reflexivity|]. cbn [filter flat_map].
  unfold is_symbol at 1. unfold symbol_bits at 2.
  destruct (symbol_value c) as [v|] eqn:E.
  - cbn [flat_map]. unfold symbol_bits at 1. now rewrite E, IH.
  - exact IH.
Qed.

(** X2: the decoder skips every character outside the alphabet, wherever
    it stands: a string and the string of its alphabet characters decode
    to the same bytes. *)
Theorem decode_ignores_foreign_characters (s : str) :
  decode_custom_b64 s = decode_custom_b64 (filter is_symbol s)
  /\ forall a c b, is_symbol c = false ->
       decode_custom_b64 (a ++ c :: b) = decode_custom_b64 (a ++ b).
Proof.
  assert (H : forall t, decode_custom_b64 t
                        = decode_custom_b64 (filter is_symbol t)).
  { intros t. rewrite !decode_custom_b64_spec. unfold alphabet_decoder_spec.
    now rewrite symbol_bits_filter. }
  split; [apply H|]. intros a c b Hc.
  rewrite (H (a ++ c :: b)), (H (a ++ b)), !filter_app. cbn [filter].
  now rewrite Hc.
Qed.

Lemma symbol_bits_length_exact (c : char) :
  List.length (symbol_bits c) = if is_symbol c then 6%nat else 0%nat.
Proof.
  unfold symbol_bits, is_symbol. destruct (symbol_value c); reflexivity.
Qed.

Lemma symbol_bits_count (s : str) :
  len (flat_map symbol_bits s) = 6 * len (filter is_symbol s).
Proof.
  unfold len. induction s as [|c s IH]; [reflexivity|].
  cbn [flat_map filter]. rewrite length_app, symbol_bits_length_exact.
  destruct (is_symbol c); cbn [List.length]; lia.
Qed.

Lemma payload_length (s : str) :
  len (alphabet_decoder_spec s) = 6 * len (filter is_symbol s) / 8.
Proof.
  unfold alphabet_decoder_spec.
  rewrite (octets_length _ _ (le_n _)). now rewrite symbol_bits_count.
Qed.

(** X3: the decoder returns a byte for every eight bits it has read: with
    [n] alphabet characters in the input, [6 * n / 8] bytes, rounded down,
    each of them in the range of a byte. *)
Theorem decoded_length_and_range (s : str) :
  exists b,
    decode_custom_b64 s = Ok b
    /\ len b = 6 * len (filter is_symbol s) / 8
    /\ is_bytes b.
Proof.
  exists (alphabet_decoder_spec s).
  split; [apply decode_custom_b64_spec|]. split.
  - apply payload_length.
  - eapply octets_are_bytes, le_n.
Qed.

Lemma quantum_table :
  forallb
    (fun i =>
       forallb
         (fun j =>
            let v := Z.of_nat i in
            let w := Z.of_nat j in
            let '(x, y, z) := quantum_bytes v w in
            (bits_value x =? 4 * v + w / 16)
            && (bits_value y =? 16 * (v mod 16) + w / 4)
            && (bits_value z =? 64 * (v mod 4) + w))
         (seq 0 64))
    (seq 0 64) = true.
Proof. vm_compute. reflexivity. Qed.

Lemma quantum_values (v w : Z) :
  0 <= v < 64 -> 0 <= w < 64 ->
  bits_value (sextet_bits v ++ firstn 2 (sextet_bits w)) = 4 * v + w / 16
  /\ bits_value (skipn 2 (sextet_bits v) ++ firstn 4 (sextet_bits w))
     = 16 * (v mod 16) + w / 4
  /\ bits_value (skipn 4 (sextet_bits v) ++ sextet_bits w)
     = 64 * (v mod 4) + w.
Proof.
  intros Hv Hw. pose proof quantum_table as T.
  rewrite forallb_forall in T.
  specialize (T (Z.to_nat v) ltac:(apply in_seq; lia)).
  rewrite forallb_forall in T.
  specialize (T (Z.to_nat w) ltac:(apply in_seq; lia)).
  rewrite !Z2Nat.id in T by lia. unfold quantum_bytes in T. cbv zeta in T.
  apply andb_true_iff in T as [T Tz]. apply andb_true_iff in T as [Tx Ty].
  apply Z.eqb_eq in Tx, Ty, Tz. auto.
Qed.

(** X4: the packing is that of base64, most significant bits first: four
    symbols of values [v0 v1 v2 v3] decode to the three bytes that hold
    their 24 bits in order. *)
Theorem four_symbols_three_bytes (c0 c1 c2 c3 : char) (v0 v1 v2 v3 : Z) :
  symbol_value c0 = Some v0 -> symbol_value c1 = Some v1 ->
  symbol_value c2 = Some v2 -> symbol_value c3 = Some v3 ->
  decode_custom_b64 [c0; c1; c2; c3]
  = Ok [ 4 * v0 + v1 / 16;
         16 * (v1 mod 16) + v2 / 4;
         64 * (v2 mod 4) + v3 ].
Proof.
  intros H0 H1 H2 H3. rewrite decode_custom_b64_spec.
  unfold alphabet_decoder_spec. cbn [flat_map]. unfold symbol_bits.
  rewrite H0, H1, H2, H3.
  apply symbol_value_range in H0, H1, H2, H3.
  destruct (quantum_values v0 v1 H0 H1) as (<- & _ & _).
  destruct (quantum_values v1 v2 H1 H2) as (_ & <- & _).
  destruct (quantum_values v2 v3 H2 H3) as (_ & _ & <-).
  reflexivity.
Qed.

Lemma four_symbols_witness :
  symbol_value (ord "a") = Some 0 /\ symbol_value (ord "b") = Some 1
  /\ decode_custom_b64 (lit "abcd") = Ok [0; 16; 131].
Proof.
  split; [reflexivity|]. split; [reflexivity|].
  exact (four_symbols_three_bytes (ord "a") (ord "b") (ord "c") (ord "d")
           0 1 2 3 eq_refl eq_refl eq_refl eq_refl).
Defined.

(** Whole bytes of bits are cut independently of what follows them. *)
Lemma octets_app (k : nat) (a b : list bool) :
  List.length a = (8 * k)%nat -> octets (a ++ b) = octets a ++ octets b.
Proof.
  revert a. induction k as [|k IH]; intros a Ha.
  - destruct a; [reflexivity | simpl in Ha; lia].
  - destruct a as [|b7 [|b6 [|b5 [|b4 [|b3 [|b2 [|b1 [|b0 rest]]]]]]]];
      simpl in Ha; try lia.
    cbn [app octets]. rewrite IH by lia. reflexivity.
Qed.

(** X5: decoding composes at every fourth symbol: when the alphabet
    characters of [s1] are a multiple of four, the bytes of [s1 ++ s2] are
    the bytes of [s1] followed by the bytes of [s2]. *)
Theorem decode_concatenation (s1 s2 : str) (n : Z) :
  len (filter is_symbol s1) = 4 * n ->
  exists b1 b2,
    decode_custom_b64 s1 = Ok b1
    /\ decode_custom_b64 s2 = Ok b2
    /\ decode_custom_b64 (s1 ++ s2) = Ok (b1 ++ b2)
    /\ len b1 = 3 * n.
Proof.
  intros Hn. exists (alphabet_decoder_spec s1), (alphabet_decoder_spec s2).
  rewrite !decode_custom_b64_spec. repeat split.
  - unfold alphabet_decoder_spec. rewrite flat_map_app. f_equal.
    apply (octets_app (Z.to_nat (3 * n))).
    pose proof (symbol_bits_count s1) as Hc. unfold len in *. lia.
  - unfold alphabet_decoder_spec. rewrite (octets_length _ _ (le_n _)).
    rewrite symbol_bits_count, Hn.
    replace (6 * (4 * n)) with (3 * n * 8) by lia. apply Z.div_mul. lia.
Qed.

Lemma decode_concatenation_witness :
  len (filter is_symbol (lit "ab cd")) = 4 * 1
  /\ decode_custom_b64 (lit "ab cd" ++ lit "))") = Ok ([0; 16; 131] ++ [255]).
Proof.
  split; [reflexivity|].
  destruct (decode_concatenation (lit "ab cd") (lit "))") 1 eq_refl)
    as (b1 & b2 & H1 & H2 & H12 & _).
  rewrite H12. f_equal. f_equal.
  - injection H1 as <-. reflexivity.
  - injection H2 as <-. reflexivity.
Defined.

(** X6: a longer input only adds bytes: the bytes of a string are the
    first bytes of any string that continues it. *)
Theorem decode_prefix (s t : str) :
  exists b rest,
    decode_custom_b64 s = Ok b
    /\ decode_custom_b64 (s ++ t) = Ok (b ++ rest).
Proof.
  rewrite !decode_custom_b64_spec. unfold alphabet_decoder_spec.
  rewrite flat_map_app.
  set (a := flat_map symbol_bits s). set (x := flat_map symbol_bits t).
  set (k := (List.length a / 8)%nat).
  assert (Hk : (8 * k <= List.length a < 8 * k + 8)%nat).
  { unfold k. pose proof (Nat.div_mod_eq (List.length a) 8).
    pose proof (Nat.mod_upper_bound (List.length a) 8). lia. }
  exists (octets a), (octets (skipn (8 * k) a ++ x)). split; [reflexivity|].
  f_equal. rewrite <- (firstn_skipn (8 * k) a) at 1 2.
  rewrite <- app_assoc.
  rewrite (octets_app k (firstn (8 * k) a) (skipn (8 * k) a ++ x))
    by (rewrite length_firstn; lia).
  rewrite (octets_app k (firstn (8 * k) a) (skipn (8 * k) a))
    by (rewrite length_firstn; lia).
  rewrite (octets_short (skipn (8 * k) a))
    by (rewrite length_skipn; lia).
  now rewrite app_nil_r.
Qed.

(** ** The alphabet decoder on whole groups of four symbols *)

Lemma octet_value_bits (b7 b6 b5 b4 b3 b2 b1 b0 : bool) :
  octet_bits (bits_value [b7; b6; b5; b4; b3; b2; b1; b0])
  = [b7; b6; b5; b4; b3; b2; b1; b0].
Proof. destruct b7, b6, b5, b4, b3, b2, b1, b0; reflexivity. Qed.

(** Whole bytes of bits are read back from the bytes. *)
Lemma octets_bits (k : nat) (a : list bool) :
  List.length a = (8 * k)%nat -> flat_map octet_bits (octets a) = a.
Proof.
  revert a. induction k as [|k IH]; intros a Ha.
  - destruct a; [reflexivity | simpl in Ha; lia].
  - destruct a as [|b7 [|b6 [|b5 [|b4 [|b3 [|b2 [|b1 [|b0 rest]]]]]]]];
      simpl in Ha; try lia.
    cbn [octets flat_map]. rewrite octet_value_bits, IH by lia.
    reflexivity.
Qed.

Lemma sextet_value_table :
  forallb (fun k => bits_value (sextet_bits (Z.of_nat k)) =? Z.of_nat k)
          (seq 0 64) = true.
Proof. vm_compute. reflexivity. Qed.

Lemma sextet_value (v : Z) : 0 <= v < 64 -> bits_value (sextet_bits v) = v.
Proof.
  intros Hv. from_table sextet_value_table v.
  apply Z.eqb_eq, T, in_seq. lia.
Qed.

Lemma symbol_bits_injective (c1 c2 : char) :
  is_symbol c1 = true -> is_symbol c2 = true ->
  symbol_bits c1 = symbol_bits c2 -> c1 = c2.
Proof.
  unfold is_symbol, symbol_bits.
  destruct (symbol_value c1) as [v1|] eqn:E1; [|discriminate].
  destruct (symbol_value c2) as [v2|] eqn:E2; [|discriminate].
  intros _ _ E. apply (f_equal bits_value) in E.
  rewrite !sextet_value in E by (eapply symbol_value_range; eauto).
  subst v2. apply symbol_value_iff in E1 as [_ <-].
  apply symbol_value_iff in E2 as [_ <-]. reflexivity.
Qed.

Lemma symbol_bits_six (c : char) :
  is_symbol c = true ->
  exists b5 b4 b3 b2 b1 b0, symbol_bits c = [b5; b4; b3; b2; b1; b0].
Proof.
  unfold is_symbol, symbol_bits.
  destruct (symbol_value c) as [v|]; [|discriminate]. intros _.
  now eexists _, _, _, _, _, _.
Qed.

Lemma symbol_bits_determine_symbols (s1 s2 : str) :
  forallb is_symbol s1 = true -> forallb is_symbol s2 = true ->
  flat_map symbol_bits s1 = flat_map symbol_bits s2 -> s1 = s2.
Proof.
  revert s2. induction s1 as [|c1 s1 IH]; intros [|c2 s2];
    cbn [forallb flat_map]; intros H1 H2 E.
  - reflexivity.
  - apply andb_true_iff in H2 as [H2 _].
    destruct (symbol_bits_six c2 H2) as (? & ? & ? & ? & ? & ? & Hc).
    rewrite Hc in E. discriminate E.
  - apply andb_true_iff in H1 as [H1 _].
    destruct (symbol_bits_six c1 H1) as (? & ? & ? & ? & ? & ? & Hc).
    rewrite Hc in E. discriminate E.
  - apply andb_true_iff in H1 as [H1 H1'].
    apply andb_true_iff in H2 as [H2 H2'].
    destruct (symbol_bits_six c1 H1) as (? & ? & ? & ? & ? & ? & Hc1).
    destruct (symbol_bits_six c2 H2) as (? & ? & ? & ? & ? & ? & Hc2).
    assert (Hc : symbol_bits c1 = symbol_bits c2
                 /\ flat_map symbol_bits s1 = flat_map symbol_bits s2).
    { rewrite Hc1, Hc2 in *. cbn [app] in E.
      injection E as -> -> -> -> -> -> E. now split. }
    destruct Hc as [Hc Hr].
    f_equal; [now apply symbol_bits_injective | now apply IH].
Qed.

Lemma filter_all (s : str) :
  forallb is_symbol s = true -> filter is_symbol s = s.
Proof.
  induction s as [|c s IH]; [reflexivity|]. cbn [forallb filter].
  intros H. apply andb_true_iff in H as [-> H]. now rewrite IH.
Qed.

(** X7: strings of whole groups of four symbols never decode to the same
    bytes.  On strings of alphabet characters whose length is a multiple
    of four no bit is dropped, and the decoder is injective. *)
Theorem whole_groups_decode_apart (s1 s2 : str) (n1 n2 : Z) :
  forallb is_symbol s1 = true -> forallb is_symbol s2 = true ->
  len s1 = 4 * n1 -> len s2 = 4 * n2 ->
  decode_custom_b64 s1 = decode_custom_b64 s2 -> s1 = s2.
Proof.
  intros H1 H2 L1 L2. rewrite !decode_custom_b64_spec.
  unfold alphabet_decoder_spec. intros [= E].
  apply symbol_bits_determine_symbols; [exact H1|exact H2|].
  pose proof (symbol_bits_count s1) as C1.
  pose proof (symbol_bits_count s2) as C2.
  rewrite filter_all in C1, C2 by assumption.
  unfold len in *.
  rewrite <- (octets_bits (Z.to_nat (3 * n1)) (flat_map symbol_bits s1))
    by lia.
  rewrite <- (octets_bits (Z.to_nat (3 * n2)) (flat_map symbol_bits s2))
    by lia.
  now rewrite E.
Qed.

Lemma whole_groups_witness :
  forallb is_symbol (lit "abcd") = true
  /\ len (lit "abcd") = 4 * 1
  /\ decode_custom_b64 (lit "abcd") = decode_custom_b64 (lit "abcd")
  /\ lit "abcd" = lit "abcd".
Proof.
  split; [reflexivity|]. split; [reflexivity|]. split; [reflexivity|].
  exact (whole_groups_decode_apart (lit "abcd") (lit "abcd") 1 1
           eq_refl eq_refl eq_refl eq_refl eq_refl).
Defined.

(** Shorter strings can collide: the last four bits of two symbols are
    dropped. *)
Example two_symbols_collide :
  decode_custom_b64 (lit "ab") = decode_custom_b64 (lit "ac").
Proof. reflexivity. Qed.

(** ** The serialized-data summary: the escaped text *)

Lemma nibble_range (x : Z) : 0 <= Z.land x 15 < 16.
Proof.
  change 15 with (Z.ones 4). rewrite Z.land_ones by lia.
  apply Z.mod_pos_bound. reflexivity.
Qed.

Lemma hexdigit_table :
  forallb (fun k => let d := hexdigit (Z.of_nat k) in
                    (32 <=? d) && (d <=? 126)
                    && match index_of d (lit "0123456789abcdef") 0 with
                       | Some v => v =? Z.of_nat k
                       | None => false
                       end) (seq 0 16) = true.
Proof. vm_compute. reflexivity. Qed.

Lemma hexdigit_spec (n : Z) :
  0 <= n < 16 ->
  printable (hexdigit n)
  /\ index_of (hexdigit n) (lit "0123456789abcdef") 0 = Some n.
Proof.
  intros Hn. from_table hexdigit_table n.
  specialize (T ltac:(apply in_seq; lia)). cbv zeta in T.
  apply andb_true_iff in T as [T Ti]. apply andb_true_iff in T as [Tl Th].
  split; [unfold printable; lia|].
  destruct (index_of (hexdigit n) _ 0); [|discriminate].
  f_equal. lia.
Qed.

Lemma hex_printable (ch : char) (digits : list Z) :
  Forall printable (hex ch digits).
Proof.
  unfold hex. apply Forall_map, Forall_forall. intros i _.
  apply hexdigit_spec, nibble_range.
Qed.

Lemma escape_char_printable (ch : char) : Forall printable (escape_char ch).
Proof.
  unfold escape_char.
  repeat match goal with
         | |- context [if ?b then _ else _] => destruct b eqn:?
         end;
    try (apply Forall_app; split; [|apply hex_printable]);
    repeat constructor; unfold printable; cbn; lia.
Qed.

(** X8: whatever the decompressed text holds, the [raw_data] of the
    summary is printable ASCII: every character of it is between the space
    and the tilde. *)
Theorem raw_data_is_printable_ascii (data : str) :
  exists entries raw,
    parse_ace_serialized_data data = PDict entries
    /\ getitem entries "raw_data" = Some (PStr raw)
    /\ Forall (fun c => 32 <= c <= 126) raw.
Proof.
  exists (summary_entries (summary_text data)),
    (unicode_escape (summary_text data)).
  split; [apply parse_summary|]. split; [reflexivity|].
  unfold unicode_escape. induction (summary_text data) as [|c s IH].
  - constructor.
  - cbn [flat_map]. apply Forall_app. split; [|exact IH].
    apply escape_char_printable.
Qed.

Lemma nibble_div (c i : Z) :
  0 <= i -> Z.land (Z.shiftr c (4 * i)) 15 = (c / 2 ^ (4 * i)) mod 16.
Proof.
  intros Hi. change 15 with (Z.ones 4).
  rewrite Z.land_ones, Z.shiftr_div_pow2 by lia. reflexivity.
Qed.

Lemma hexnum_hex (c : char) (digits : list Z) (acc : Z) :
  hexnum (hex c digits) acc
  = Some (fold_left (fun a i => 16 * a + Z.land (Z.shiftr c (4 * i)) 15)
                    digits acc).
Proof.
  revert acc. induction digits as [|i digits IH]; intros acc; [reflexivity|].
  cbn [hex map hexnum fold_left]. unfold hexval.
  destruct (hexdigit_spec _ (nibble_range (Z.shiftr c (4 * i)))) as [_ ->].
  apply IH.
Qed.

Lemma unescape_x (c : char) (rest : str) :
  0 <= c < 256 -> unescape_hex 2 (hex c [1; 0] ++ rest) = Some (c, rest).
Proof.
  intros Hc. unfold unescape_hex.
  change (firstn 2 (hex c [1; 0] ++ rest)) with (hex c [1; 0]).
  change (skipn 2 (hex c [1; 0] ++ rest)) with rest.
  rewrite hexnum_hex. cbn [fold_left]. rewrite !nibble_div by lia.
  do 2 f_equal. change (2 ^ (4 * 1)) with 16. change (2 ^ (4 * 0)) with 1.
  rewrite Z.div_1_r. unfold char in c.
  Z.to_euclidean_division_equations; lia.
Qed.

Lemma unescape_u (c : char) (rest : str) :
  0 <= c < 65536 ->
  unescape_hex 4 (hex c [3; 2; 1; 0] ++ rest) = Some (c, rest).
Proof.
  intros Hc. unfold unescape_hex.
  change (firstn 4 (hex c [3; 2; 1; 0] ++ rest)) with (hex c [3; 2; 1; 0]).
  change (skipn 4 (hex c [3; 2; 1; 0] ++ rest)) with rest.
  rewrite hexnum_hex. cbn [fold_left]. rewrite !nibble_div by lia.
  do 2 f_equal.
  change (2 ^ (4 * 3)) with 4096. change (2 ^ (4 * 2)) with 256.
  change (2 ^ (4 * 1)) with 16. change (2 ^ (4 * 0)) with 1.
  rewrite Z.div_1_r. unfold char in c.
  Z.to_euclidean_division_equations; lia.
Qed.

Lemma unescape_U (c : char) (rest : str) :
  0 <= c < 16777216 ->
  unescape_hex 8 (lit "00" ++ hex c [5; 4; 3; 2; 1; 0] ++ rest)
  = Some (c, rest).
Proof.
  intros Hc. unfold unescape_hex.
  change (firstn 8 (lit "00" ++ hex c [5; 4; 3; 2; 1; 0] ++ rest))
    with (lit "00" ++ hex c [5; 4; 3; 2; 1; 0]).
  change (skipn 8 (lit "00" ++ hex c [5; 4; 3; 2; 1; 0] ++ rest)) with rest.
  change (hexnum (lit "00" ++ hex c [5; 4; 3; 2; 1; 0]) 0)
    with (hexnum (hex c [5; 4; 3; 2; 1; 0]) 0).
  rewrite hexnum_hex. cbn [fold_left]. rewrite !nibble_div by lia.
  do 2 f_equal.
  change (2 ^ (4 * 5)) with 1048576. change (2 ^ (4 * 4)) with 65536.
  change (2 ^ (4 * 3)) with 4096. change (2 ^ (4 * 2)) with 256.
  change (2 ^ (4 * 1)) with 16. change (2 ^ (4 * 0)) with 1.
  rewrite Z.div_1_r. unfold char in c.
  Z.to_euclidean_division_equations; lia.
Qed.

Lemma unescape_escape (c : char) (rest : str) :
  code_point c -> unescape_one (escape_char c ++ rest) = Some (c, rest).
Proof.
  unfold code_point. intros Hc. unfold escape_char.
  destruct (Z.ltb_spec c 256) as [H256|H256].
  - destruct (Z.leb_spec 32 c) as [H32|H32];
      [destruct (Z.ltb_spec c 127) as [H127|H127]|]; cbn [andb].
    + destruct (Z.eqb_spec c (ord "\")) as [->|Hne]; [reflexivity|].
      cbn [app unescape_one].
      replace (c =? ord "\") with false
        by (symmetry; apply Z.eqb_neq; exact Hne).
      reflexivity.
    + destruct (Z.eqb_spec c 9); [lia|]. destruct (Z.eqb_spec c 10); [lia|].
      destruct (Z.eqb_spec c 13); [lia|].
      change (unescape_hex 2 (hex c [1; 0] ++ rest) = Some (c, rest)).
      apply unescape_x. lia.
    + destruct (Z.eqb_spec c 9) as [->|]; [reflexivity|].
      destruct (Z.eqb_spec c 10) as [->|]; [reflexivity|].
      destruct (Z.eqb_spec c 13) as [->|]; [reflexivity|].
      change (unescape_hex 2 (hex c [1; 0] ++ rest) = Some (c, rest)).
      apply unescape_x. lia.
  - destruct (Z.ltb_spec c 65536) as [H16|H16].
    + change (unescape_hex 4 (hex c [3; 2; 1; 0] ++ rest) = Some (c, rest)).
      apply unescape_u. lia.
    + change (unescape_hex 8
                (lit "00" ++ hex c [5; 4; 3; 2; 1; 0] ++ rest)
              = Some (c, rest)).
      apply unescape_U. lia.
Qed.

Lemma escape_char_nonempty (c : char) : escape_char c <> [].
Proof.
  unfold escape_char.
  repeat match goal with
         | |- context [if ?b then _ else _] => destruct b
         end; discriminate.
Qed.

Lemma unicode_escape_injective (s1 s2 : str) :
  Forall code_point s1 -> Forall code_point s2 ->
  unicode_escape s1 = unicode_escape s2 -> s1 = s2.
Proof.
  intros H1. revert s2. induction H1 as [|c1 s1 Hc1 _ IH]; intros s2 H2 E.
  - destruct H2 as [|c2 s2 Hc2 _]; [reflexivity|].
    cbn [unicode_escape flat_map] in E. symmetry in E.
    apply app_eq_nil in E as [E _]. now apply escape_char_nonempty in E.
  - destruct H2 as [|c2 s2 Hc2 H2].
    + cbn [unicode_escape flat_map] in E.
      apply app_eq_nil in E as [E _]. now apply escape_char_nonempty in E.
    + cbn [unicode_escape flat_map] in E.
      apply (f_equal unescape_one) in E.
      rewrite !unescape_escape in E by assumption.
      injection E as -> E. f_equal. apply IH; assumption.
Qed.

Lemma summary_text_code_points (data : str) :
  Forall code_point data -> Forall code_point (summary_text data).
Proof.
  intros H. unfold summary_text, slice_from.
  destruct (startswith data [1; 0]); [|exact H].
  rewrite Forall_forall in *. intros c Hc. apply H.
  rewrite <- (firstn_skipn (Z.to_nat 2) data). apply in_or_app. now right.
Qed.

(** X9: the summary loses nothing of the text.  Two texts of Unicode code
    points have the same summary exactly when they are the same text once
    the two-character header is removed: [raw_data], the escaped text,
    determines the text. *)
Theorem summary_determines_text (d1 d2 : str) :
  Forall code_point d1 -> Forall code_point d2 ->
  (parse_ace_serialized_data d1 = parse_ace_serialized_data d2
   <-> summary_text d1 = summary_text d2).
Proof.
  intros H1 H2. rewrite !parse_summary. split.
  - unfold summary_entries. cbn [app]. intros E.
    injection E as E _.
    apply unicode_escape_injective;
      auto using summary_text_code_points.
  - now intros ->.
Qed.

Lemma summary_determines_text_witness :
  Forall code_point (1 :: 0 :: lit "pulls")
  /\ Forall code_point (lit "pulls")
  /\ (parse_ace_serialized_data (1 :: 0 :: lit "pulls")
      = parse_ace_serialized_data (lit "pulls")
      <-> summary_text (1 :: 0 :: lit "pulls") = summary_text (lit "pulls")).
Proof.
  assert (H1 : Forall code_point (1 :: 0 :: lit "pulls"))
    by (repeat apply Forall_cons; try apply Forall_nil;
        cbv; (split; [discriminate|reflexivity])).
  assert (H2 : Forall code_point (lit "pulls"))
    by (repeat apply Forall_cons; try apply Forall_nil;
        cbv; (split; [discriminate|reflexivity])).
  split; [exact H1|]. split; [exact H2|].
  exact (summary_determines_text _ _ H1 H2).
Defined.

(** ** The pipeline, further *)

Lemma float_below_finite_nonneg (B : Z) (f : spec_float) :
  float_below false B f -> finite_nonneg f.
Proof. destruct f; simpl; tauto. Qed.

(** The rounding of a non-negative float of at most [2 ^ 1000] is again
    zero or positive and finite. *)
Lemma py_round_below_value (q r : spec_float) (B : Z) :
  float_below false B q -> B <= 1000 -> py_round q 2 = Ok r ->
  finite_nonneg r.
Proof.
  intros Hq HB. destruct q as [s|s| |s m e]; simpl in Hq; try contradiction.
  - intros [= <-]. exact I.
  - destruct Hq as (-> & He & Hv). unfold py_round.
    replace (NDIGITS_MAX <? 2) with false by reflexivity.
    replace (2 <? NDIGITS_MIN) with false by reflexivity.
    cbv zeta. change (10 ^ Z.max 0 2) with 100.
    change (10 ^ Z.max 0 (- (2))) with 1.
    set (num := Z.pos m * 2 ^ Z.max 0 e * 100).
    set (den := 2 ^ Z.max 0 (- e) * 1).
    set (k := div_half_even num den).
    destruct (k =? 0) eqn:Ek; [intros [= <-]; exact I|].
    apply Z.eqb_neq in Ek.
    assert (Hden : 0 < den)
      by (unfold den; rewrite Z.mul_1_r; apply Z.pow_pos_nonneg; lia).
    assert (Hnum : 0 <= num).
    { unfold num. apply Z.mul_nonneg_nonneg; [|lia].
      apply Z.mul_nonneg_nonneg; [lia|apply Z.pow_nonneg; lia]. }
    destruct (div_half_even_upper num den Hnum Hden) as [Hk0 Hk1].
    fold k in Hk0, Hk1.
    assert (Hk : k < 2 ^ 1008).
    { set (U := 2 ^ Z.max 0 e) in *. set (D := 2 ^ Z.max 0 (- e)) in *.
      set (P := 2 ^ (e + 1074)) in *. set (Q := 2 ^ 1074).
      set (C := 2 ^ 1000).
      assert (HU : 0 < U) by (apply Z.pow_pos_nonneg; lia).
      assert (HP : 0 < P) by (apply Z.pow_pos_nonneg; lia).
      assert (HQ : 0 < Q) by reflexivity.
      assert (HW : U * Q = D * P).
      { unfold U, Q, D, P. rewrite <- !Z.pow_add_r by lia. f_equal. lia. }
      assert (HmP : Z.pos m * P <= C * Q).
      { eapply Z.le_trans; [exact Hv|]. unfold C, Q.
        rewrite <- Z.pow_add_r by lia. apply Z.pow_le_mono_r; lia. }
      assert (Hk2 : den * k * P <= (num + den) * P)
        by (apply Z.mul_le_mono_nonneg_r; lia).
      assert (HkW : k * (U * Q) <= (100 * C + 1) * (U * Q)).
      { unfold num, den in Hk2. fold U D in Hk2.
        clearbody U D P Q C k. nia. }
      apply Z.mul_le_mono_pos_r in HkW; [|lia].
      apply Z.le_lt_trans with (100 * C + 1); [exact HkW|]. reflexivity. }
    assert (Hlog : Z.log2 (k * 1) - Z.log2 100 + 1 <= 1023).
    { rewrite Z.mul_1_r. change (Z.log2 100) with 6.
      assert (Z.log2 k < 1008) by (apply Z.log2_lt_pow2; lia). lia. }
    pose proof (nearest_float_below (k * 1) 100 ltac:(lia) ltac:(lia) Hlog)
      as Hr.
    apply float_below_finite_nonneg in Hr.
    destruct (nearest_float false (k * 1) 100) as [s|s| |s m' e'];
      simpl in Hr; try contradiction; intros [= <-]; simpl; auto.
Qed.

Lemma filter_symbols_length (s : str) : len (filter is_symbol s) <= len s.
Proof.
  unfold len. apply inj_le.
  induction s as [|c s IH]; simpl; [lia|].
  destruct (is_symbol c); simpl; lia.
Qed.

Lemma strip_marker_symbols (s : str) :
  filter is_symbol (strip_marker s) = filter is_symbol s.
Proof.
  unfold strip_marker. destruct s as [|a s]; [reflexivity|].
  cbn [startswith lit]. destruct (Z.eqb_spec a (ord "!")) as [->|_];
    reflexivity.
Qed.

Section PipelineProperties.

Variable zlib_decompress : bytes -> exc bytes.

(** The steps run on the payload bytes; of the input itself only the
    length is kept. *)
Lemma decode_steps_payload (r1 r2 : str) :
  alphabet_decoder_spec r1 = alphabet_decoder_spec r2 ->
  match decode_steps zlib_decompress r1, decode_steps zlib_decompress r2 with
  | Ok a, Ok b =>
      exists c d ratio data,
        a = success_result (len r1) c d ratio data
        /\ b = success_result (len r2) c d ratio data
  | Raise e1, Raise e2 => e1 = e2
  | _, _ => False
  end.
Proof.
  intros H. rewrite !decode_steps_unfold. cbv zeta.
  rewrite !payload_bytes_strip, H.
  destruct (decompress_data zlib_decompress (alphabet_decoder_spec r2))
    as [d|e]; cbn [bind]; [|reflexivity].
  destruct (py_truediv _ _) as [q|e]; cbn [bind]; [|reflexivity].
  destruct (py_round q 2) as [ratio|e]; cbn [bind]; [|reflexivity].
  now eexists _, _, _, _.
Qed.

(** X10: a decode succeeds exactly when the codec inflates the payload to
    at least one byte.  For a route string of a length a Python string can
    have, the result has the keys [metadata] and [route_data] if and only
    if [zlib.decompress] returns a non-empty sequence on the
    alphabet-decoded bytes: the division and the rounding never fail
    otherwise. *)
Theorem success_iff_stream_nonempty (route_string : str) :
  len route_string < 2 ^ 63 ->
  (keys (decode_mdt_route_string zlib_decompress route_string)
   = [lit "metadata"; lit "route_data"]
   <-> exists compressed decompressed,
         decode_custom_b64 (strip_marker route_string) = Ok compressed
         /\ zlib_decompress compressed = Ok decompressed
         /\ decompressed <> []).
Proof.
  intros Hlen. split.
  - intros Hk.
    destruct (decode_steps zlib_decompress route_string) as [r|e] eqn:Hs.
    + destruct (steps_ok_inv _ _ _ Hs)
        as (c & d & q & ratio & Hb & Hz & Hq & _ & _).
      exists c, d. split; [exact Hb|]. split; [exact Hz|].
      intros ->. discriminate Hq.
    + rewrite (decode_of_raise _ _ _ Hs) in Hk. discriminate Hk.
  - intros (c & d & Hb & Hz & Hne).
    destruct (nonempty_stream_succeeds zlib_decompress route_string c d
                Hlen Hb Hz Hne) as [ratio ->].
    reflexivity.
Qed.

(** X11: what the metadata of a success always satisfies.  The original
    length is that of the input, the compressed length is at most three
    quarters of it (six bits a character, eight a byte), the decompressed
    length is at least one, and the ratio is zero or a positive finite
    float: never negative, an infinity or a NaN. *)
Theorem metadata_invariants (route_string : str) (n c d : Z)
    (ratio : spec_float) (data : pyval) :
  len route_string < 2 ^ 63 ->
  decode_mdt_route_string zlib_decompress route_string
  = success_result n c d ratio data ->
  n = len route_string
  /\ 0 <= 4 * c <= 3 * n
  /\ 1 <= d
  /\ finite_nonneg ratio.
Proof.
  intros Hlen Hdec.
  destruct (decode_steps zlib_decompress route_string) as [r|e] eqn:Hs;
    [|rewrite (decode_of_raise _ _ _ Hs) in Hdec; discriminate Hdec].
  rewrite (decode_of_ok _ _ _ Hs) in Hdec. subst r.
  destruct (steps_ok_inv _ _ _ Hs)
    as (cb & db & q & ratio' & Hb & Hz & Hq & Hr & Hres).
  unfold success_result in Hres.
  injection Hres as Hn Hc Hd Hratio Hdata.
  subst n c d ratio'.
  rewrite decode_custom_b64_spec in Hb. injection Hb as <-.
  pose proof (payload_length (strip_marker route_string)) as Hlc.
  rewrite strip_marker_symbols in Hlc.
  pose proof (filter_symbols_length route_string) as Hls.
  pose proof (Z.mul_div_le (6 * len (filter is_symbol route_string)) 8
                ltac:(lia)) as Hdiv.
  rewrite <- Hlc in Hdiv.
  pose proof (len_nonneg (alphabet_decoder_spec (strip_marker route_string)))
    as Hc0.
  set (cl := len (alphabet_decoder_spec (strip_marker route_string))) in *.
  assert (Hd : 1 <= len db).
  { destruct db; [discriminate Hq|]. unfold len. simpl List.length. lia. }
  split; [reflexivity|]. split; [lia|]. split; [exact Hd|].
  assert (HL : Z.log2 cl - Z.log2 (len db) + 1 <= 64).
  { pose proof (Z.log2_nonneg (len db)).
    destruct (Z.eq_dec cl 0) as [->|Hnz]; [simpl; lia|].
    assert (Z.log2 cl < 63) by (apply Z.log2_lt_pow2; lia).
    lia. }
  destruct (py_truediv_below cl (len db)) as (q' & Hq' & Hbelow);
    [lia|lia|lia|].
  rewrite Hq in Hq'. injection Hq' as <-.
  apply (py_round_below_value q ratio _ Hbelow); [lia|exact Hr].
Qed.

(** X12: only the alphabet characters of a route string reach the codec.
    Two route strings with the same alphabet characters in the same order
    (they may differ in the marker, in line breaks, spaces or any other
    foreign character) decode alike: both succeed with the same compressed
    length, decompressed length, ratio and route data, or both fail with
    the same exception; only [original_length] and [original_string]
    follow the input as given. *)
Theorem decode_depends_on_symbols_only (r1 r2 : str) :
  filter is_symbol r1 = filter is_symbol r2 ->
  (exists compressed_length decompressed_length ratio route_data,
     decode_mdt_route_string zlib_decompress r1
     = success_result (len r1) compressed_length decompressed_length
         ratio route_data
     /\ decode_mdt_route_string zlib_decompress r2
        = success_result (len r2) compressed_length decompressed_length
            ratio route_data)
  \/ (exists e,
        decode_mdt_route_string zlib_decompress r1 = failure_result e r1
        /\ decode_mdt_route_string zlib_decompress r2 = failure_result e r2).
Proof.
  intros Hf.
  assert (Hp : alphabet_decoder_spec r1 = alphabet_decoder_spec r2).
  { unfold alphabet_decoder_spec.
    now rewrite <- (symbol_bits_filter r1), <- (symbol_bits_filter r2), Hf. }
  pose proof (decode_steps_payload r1 r2 Hp) as H.
  unfold decode_mdt_route_string.
  destruct (decode_steps zlib_decompress r1) as [a|e1],
           (decode_steps zlib_decompress r2) as [b|e2];
    try contradiction.
  - left. destruct H as (c & d & ratio & data & -> & ->).
    now exists c, d, ratio, data.
  - right. subst e2. now exists e1.
Qed.

(** Printing changes nothing of what the decoder returns. *)
Lemma decode_printing_result (route_string : str) :
  snd (decode_printing zlib_decompress route_string)
  = decode_mdt_route_string zlib_decompress route_string.
Proof.
  unfold decode_printing, decode_steps_printing, decode_mdt_route_string,
    decode_steps.
  cbv zeta. destruct (decode_custom_b64 (strip_marker route_string)) as [c|e];
    unfold io_bind, print, io_lift; cbn [fst snd bind app]; [|reflexivity].
  destruct (decompress_data zlib_decompress c) as [d|e];
    cbn [fst snd bind app]; [|reflexivity].
  destruct (py_truediv (len c) (len d)) as [q|e]; cbn [fst snd bind app];
    [|reflexivity].
  destruct (py_round q 2) as [ratio|e]; reflexivity.
Qed.

(** X13: the decoder's progress lines.  With its [print] calls the decoder
    returns what the decoder without them returns, and it prints
    "Decoding Base64...", the number of decoded bytes and
    "Decompressing data..." on every input, then the number of
    decompressed bytes and "Parsing serialized data..." exactly when the
    decompression stage returns: the lines tell how far the decode went,
    and nothing is printed after the fifth. *)
Theorem progress_lines_follow_the_stages (route_string : str) :
  snd (decode_printing zlib_decompress route_string)
  = decode_mdt_route_string zlib_decompress route_string
  /\ exists compressed,
       decode_custom_b64 (strip_marker route_string) = Ok compressed
       /\ fst (decode_printing zlib_decompress route_string)
          = [ lit "Decoding Base64...";
              lit "Decoded " ++ str_of_int (len compressed) ++ lit " bytes";
              lit "Decompressing data..." ]
            ++ match decompress_data zlib_decompress compressed with
               | Ok decompressed =>
                   [ lit "Decompressed to "
                     ++ str_of_int (len decompressed) ++ lit " bytes";
                     lit "Parsing serialized data..." ]
               | Raise _ => []
               end.
Proof.
  split; [apply decode_printing_result|].
  unfold decode_printing, decode_steps_printing.
  cbv zeta. rewrite decode_custom_b64_spec.
  set (c := alphabet_decoder_spec (strip_marker route_string)).
  exists c. split; [reflexivity|].
  unfold io_bind, print, io_lift. cbn [fst snd bind app].
  destruct (decompress_data zlib_decompress c) as [d|e];
    cbn [fst snd bind app]; [|reflexivity].
  destruct (py_truediv (len c) (len d)) as [q|e]; cbn [fst snd bind app];
    [|reflexivity].
  destruct (py_round q 2) as [ratio|e]; reflexivity.
Qed.

End PipelineProperties.

Lemma success_iff_stream_nonempty_witness :
  len week_route < 2 ^ 63
  /\ (keys (decode_mdt_route_string StoredZlib.decompress week_route)
      = [lit "metadata"; lit "route_data"]
      <-> exists compressed decompressed,
            decode_custom_b64 (strip_marker week_route) = Ok compressed
            /\ StoredZlib.decompress compressed = Ok decompressed
            /\ decompressed <> []).
Proof.
  assert (H : len week_route < 2 ^ 63) by reflexivity.
  split; [exact H|].
  exact (success_iff_stream_nonempty StoredZlib.decompress week_route H).
Defined.

Lemma metadata_invariants_witness :
  len week_route < 2 ^ 63
  /\ 21 = len week_route
  /\ 0 <= 4 * 15 <= 3 * 21
  /\ 1 <= 4
  /\ finite_nonneg (S754_finite false 8444249301319680 (-51)).
Proof.
  assert (H : len week_route < 2 ^ 63) by reflexivity.
  split; [exact H|].
  exact (metadata_invariants StoredZlib.decompress week_route _ _ _ _ _ H
           decode_week_route).
Defined.

(** The sample route on two lines, without its marker and with a blank in
    front. *)
Lemma decode_depends_on_symbols_only_witness :
  filter is_symbol week_route
  = filter is_symbol (lit " Eaebbad7)3" ++ [10] ++ lit "DLzwSeragT")
  /\ decode_mdt_route_string StoredZlib.decompress
       (lit " Eaebbad7)3" ++ [10] ++ lit "DLzwSeragT")
     = success_result 22 15 4 (S754_finite false 8444249301319680 (-51))
         (parse_ace_serialized_data (lit "week")).
Proof.
  assert (H : filter is_symbol week_route
              = filter is_symbol
                  (lit " Eaebbad7)3" ++ [10] ++ lit "DLzwSeragT"))
    by (vm_compute; reflexivity).
  split; [exact H|].
  destruct (decode_depends_on_symbols_only StoredZlib.decompress _ _ H)
    as [(c & d & ratio & data & H1 & H2)|(e & H1 & _)].
  - rewrite H2. rewrite decode_week_route in H1.
    unfold success_result in H1. injection H1 as <- <- <- <-.
    reflexivity.
  - rewrite decode_week_route in H1. discriminate H1.
Defined.

(** ** The command line *)

Lemma startswith_app (s p : str) :
  startswith s p = true -> exists t, s = p ++ t.
Proof.
  revert s. induction p as [|b p IH]; intros s; [now exists s|].
  destruct s as [|a s]; cbn [startswith]; [discriminate|].
  intros H. apply andb_true_iff in H as [Hab Hs].
  apply Z.eqb_eq in Hab. subst b.
  destruct (IH _ Hs) as [t ->]. now exists t.
Qed.

Lemma str_in_In (c : char) (hay : str) :
  str_in [c] hay = true -> In c hay.
Proof.
  induction hay as [|a r IH]; cbn [str_in startswith]; [discriminate|].
  intros H. apply orb_true_iff in H as [H|H].
  - apply andb_true_iff in H as [H _]. apply Z.eqb_eq in H. now left.
  - right. now apply IH.
Qed.

Lemma endswith_In (s p : str) (c : char) :
  endswith s p = true -> In c p -> In c s.
Proof.
  unfold endswith. intros H Hc. apply startswith_app in H as [t Ht].
  apply in_rev. rewrite Ht. apply in_or_app. left. now apply in_rev in Hc.
Qed.

(** A path has a dot, a slash or a backslash. *)
Lemma looks_like_path_chars (input_arg : str) :
  looks_like_path input_arg = true ->
  In (ord ".") input_arg \/ In (ord "/") input_arg
  \/ In (ord "\") input_arg.
Proof.
  unfold looks_like_path. intros H.
  apply orb_true_iff in H as [H|H]; [apply orb_true_iff in H as [H|H]|].
  - left. apply (endswith_In _ _ _ H). simpl. tauto.
  - right. left. now apply str_in_In.
  - right. right. now apply str_in_In.
Qed.

Lemma route_char_table :
  forallb (fun c => negb (isspace c) && negb (c =? ord ".")
                    && negb (c =? ord "/") && negb (c =? ord "\"))
          (ord "!" :: B64_ALPHABET) = true.
Proof. vm_compute. reflexivity. Qed.

Lemma route_char_spec (c : char) :
  route_char c = true ->
  isspace c = false /\ c <> ord "." /\ c <> ord "/" /\ c <> ord "\".
Proof.
  intros H. unfold route_char in H.
  assert (Hin : In c (ord "!" :: B64_ALPHABET)).
  { apply orb_true_iff in H as [H|H].
    - right. now apply is_symbol_In.
    - left. symmetry. now apply Z.eqb_eq. }
  pose proof route_char_table as T. rewrite forallb_forall in T.
  specialize (T c Hin).
  apply andb_true_iff in T as [T H4]. apply andb_true_iff in T as [T H3].
  apply andb_true_iff in T as [H1 H2].
  apply negb_true_iff in H1, H2, H3, H4.
  repeat split; try assumption; now apply Z.eqb_neq.
Qed.

Lemma route_is_no_path (route : str) :
  forallb route_char route = true -> looks_like_path route = false.
Proof.
  intros H. rewrite forallb_forall in H.
  destruct (looks_like_path route) eqn:E; [exfalso|reflexivity].
  apply looks_like_path_chars in E as [E|[E|E]];
    apply H, route_char_spec in E; tauto.
Qed.

Lemma lstrip_spaces (ws t : str) :
  forallb isspace ws = true -> lstrip (ws ++ t) = lstrip t.
Proof.
  induction ws as [|c ws IH]; [reflexivity|]. cbn [forallb app lstrip].
  intros H. apply andb_true_iff in H as [-> H]. now apply IH.
Qed.

Lemma lstrip_app (t u : str) :
  lstrip (t ++ u) = if len (lstrip t) =? 0 then lstrip u else lstrip t ++ u.
Proof.
  induction t as [|c t IH]; [reflexivity|]. cbn [app lstrip].
  destruct (isspace c); [exact IH|].
  destruct (Z.eqb_spec (len (c :: t)) 0) as [E|_]; [|reflexivity].
  unfold len in E. cbn [List.length] in E. lia.
Qed.

Lemma rstrip_spaces (t ws : str) :
  forallb isspace ws = true ->
  rev (lstrip (rev (t ++ ws))) = rev (lstrip (rev t)).
Proof.
  intros H. rewrite rev_app_distr, lstrip_spaces; [reflexivity|].
  rewrite forallb_forall in *. intros c Hc. apply H. now apply in_rev.
Qed.

(** [strip] removes the whitespace around a text, whatever there is of
    it. *)
Lemma strip_spaces (ws1 t ws2 : str) :
  forallb isspace ws1 = true -> forallb isspace ws2 = true ->
  strip (ws1 ++ t ++ ws2) = strip t.
Proof.
  intros H1 H2. unfold strip. rewrite lstrip_spaces by exact H1.
  rewrite lstrip_app.
  destruct (Z.eqb_spec (len (lstrip t)) 0) as [E|_].
  - destruct (lstrip t); [|discriminate E].
    rewrite <- (app_nil_r ws2), lstrip_spaces by exact H2. reflexivity.
  - now apply rstrip_spaces.
Qed.

Lemma lstrip_no_space (s : str) :
  forallb (fun c => negb (isspace c)) s = true -> lstrip s = s.
Proof.
  destruct s as [|c s]; [reflexivity|]. cbn [forallb lstrip].
  intros H. apply andb_true_iff in H as [H _].
  apply negb_true_iff in H. now rewrite H.
Qed.

Lemma strip_route (route : str) :
  forallb route_char route = true -> strip route = route.
Proof.
  intros H.
  assert (Hs : forall l, (forall c, In c l -> In c route) ->
                         forallb (fun c => negb (isspace c)) l = true).
  { intros l Hl. apply forallb_forall. intros c Hc.
    rewrite forallb_forall in H.
    apply Hl, H, route_char_spec in Hc as [-> _]. reflexivity. }
  unfold strip. rewrite (lstrip_no_space route) by (apply Hs; auto).
  rewrite lstrip_no_space by (apply Hs; intros c; apply in_rev).
  apply rev_involutive.
Qed.

Section MainProperties.

Variable zlib_decompress : bytes -> exc bytes.
Variable read_file : str -> file_read.
Variable json_dumps : pyval -> str.

Lemma decode_and_print_lines (route_string : str) :
  decode_and_print zlib_decompress json_dumps route_string
  = fst (decode_printing zlib_decompress route_string)
    ++ [json_dumps (decode_mdt_route_string zlib_decompress route_string)].
Proof.
  unfold decode_and_print.
  pose proof (decode_printing_result zlib_decompress route_string) as Hr.
  destruct (decode_printing zlib_decompress route_string)
    as [printed result].
  cbn [fst snd] in *. now rewrite Hr.
Qed.

Lemma main_literal (prog arg : str) :
  looks_like_path arg = false ->
  main zlib_decompress read_file json_dumps [prog; arg]
  = decode_and_print zlib_decompress json_dumps arg.
Proof. intros Hp. unfold main. cbn [nth]. now rewrite Hp. Qed.

(** X14: a route string is never mistaken for a file.  When the argument
    holds only alphabet characters and the marker, [main] opens no file,
    whatever the file system holds: it prints the decoder's progress lines
    and then the JSON text of the decode of the argument itself. *)
Theorem route_argument_is_decoded_directly (prog arg : str) :
  forallb route_char arg = true ->
  looks_like_path arg = false
  /\ main zlib_decompress read_file json_dumps [prog; arg]
     = fst (decode_printing zlib_decompress arg)
       ++ [json_dumps (decode_mdt_route_string zlib_decompress arg)].
Proof.
  intros H. pose proof (route_is_no_path arg H) as Hp.
  split; [exact Hp|].
  rewrite (main_literal _ _ Hp). apply decode_and_print_lines.
Qed.

(** X15: a route string in a file.  When the argument names a file whose
    text is a route string of alphabet characters and the marker with any
    whitespace around it (a final line break, say), [main] prints exactly
    what it prints when the route string itself is the argument. *)
Theorem file_input_equals_literal_input (prog path ws1 route ws2 : str) :
  looks_like_path path = true ->
  read_file path = FileText (ws1 ++ route ++ ws2) ->
  forallb isspace ws1 = true ->
  forallb isspace ws2 = true ->
  forallb route_char route = true ->
  main zlib_decompress read_file json_dumps [prog; path]
  = main zlib_decompress read_file json_dumps [prog; route].
Proof.
  intros Hp Hread H1 H2 Hr.
  rewrite (main_literal prog route (route_is_no_path route Hr)).
  unfold main. cbn [nth]. rewrite Hp, Hread.
  change (len [prog; path] =? 2) with true. cbn [negb].
  now rewrite (strip_spaces _ _ _ H1 H2), (strip_route _ Hr).
Qed.

End MainProperties.

Lemma route_argument_witness :
  forallb route_char week_route = true
  /\ looks_like_path week_route = false
  /\ main StoredZlib.decompress (fun _ => NotFound) (fun _ => lit "{}")
       [lit "mdt_decoder.py"; week_route]
     = fst (decode_printing StoredZlib.decompress week_route)
       ++ [lit "{}"].
Proof.
  assert (H : forallb route_char week_route = true) by reflexivity.
  split; [exact H|].
  exact (route_argument_is_decoded_directly StoredZlib.decompress
           (fun _ => NotFound) (fun _ => lit "{}")
           (lit "mdt_decoder.py") week_route H).
Defined.

(** The file rt1.txt holds the sample route between two blanks and a line
    break. *)
Lemma file_input_witness :
  looks_like_path (lit "rt1.txt") = true
  /\ forallb isspace (lit "  ") = true
  /\ forallb isspace [10] = true
  /\ forallb route_char week_route = true
  /\ main StoredZlib.decompress
       (fun _ => FileText (lit "  " ++ week_route ++ [10]))
       (fun _ => lit "{}") [lit "mdt_decoder.py"; lit "rt1.txt"]
     = main StoredZlib.decompress
         (fun _ => FileText (lit "  " ++ week_route ++ [10]))
         (fun _ => lit "{}") [lit "mdt_decoder.py"; week_route].
Proof.
  assert (Hp : looks_like_path (lit "rt1.txt") = true) by reflexivity.
  assert (H1 : forallb isspace (lit "  ") = true) by reflexivity.
  assert (H2 : forallb isspace [10] = true) by reflexivity.
  assert (Hr : forallb route_char week_route = true) by reflexivity.
  split; [exact Hp|]. split; [exact H1|]. split; [exact H2|].
  split; [exact Hr|].
  exact (file_input_equals_literal_input StoredZlib.decompress
           (fun _ => FileText (lit "  " ++ week_route ++ [10]))
           (fun _ => lit "{}") (lit "mdt_decoder.py") (lit "rt1.txt")
           (lit "  ") week_route [10] Hp eq_refl H1 H2 Hr).
Defined.
